(** * OSU ticket monitor: page parser, history store and alert policy

    A shallow embedding of [parse_event.py] and of the detection logic of
    [monitor.py], with the properties of the prose specification stated and
    proved over it.

    Modelling conventions.
    - A Python [float] is a primitive binary64 [float]; [<], [<=], [-] and
      [abs] are the primitive operations, so every comparison below rounds
      exactly as the interpreter does.
    - A Python [int] is a [Z]; [None] is [None] of an [option].
    - A Python [str] is a [string] whose characters are the code points
      below 256.
    - The BeautifulSoup document is a tree of tags and text nodes; the
      queries the parser issues ([find_all], [select], [get_text]) are
      functions over that tree. *)

From Stdlib Require Import ZArith List String Ascii Bool Lia Floats Sorted.
From Stdlib Require Import Permutation.
From Stdlib Require Uint63 DecimalString DecimalN.
Import ListNotations.

#[local] Set Warnings "-register-all".

Local Open Scope string_scope.
Local Open Scope list_scope.

(** ** Python strings *)

Definition code (c : ascii) : N := N_of_ascii c.

(** [str.isspace] and the regex class [\s] on code points below 256. *)
Definition is_space (c : ascii) : bool :=
  let n := code c in
  ((9 <=? n) && (n <=? 13) || (28 <=? n) && (n <=? 32)
   || (n =? 133) || (n =? 160))%N.

(** The regex class [[0-9]]. *)
Definition is_digit (c : ascii) : bool :=
  let n := code c in ((48 <=? n) && (n <=? 57))%N.

(** The regex class [\w] on code points below 256. *)
Definition is_word (c : ascii) : bool :=
  let n := code c in
  ((48 <=? n) && (n <=? 57) || (65 <=? n) && (n <=? 90) || (n =? 95)
   || (97 <=? n) && (n <=? 122)
   || (n =? 170) || (n =? 178) || (n =? 179) || (n =? 181) || (n =? 185)
   || (n =? 186) || (188 <=? n) && (n <=? 190)
   || (192 <=? n) && (n <=? 214) || (216 <=? n) && (n <=? 246)
   || (248 <=? n))%N.

(** Case folding of the ASCII letters, what [re.I] needs for the ASCII
    patterns of the parser. *)
Definition lower (c : ascii) : ascii :=
  let n := code c in
  if ((65 <=? n) && (n <=? 90))%N then ascii_of_N (n + 32) else c.

Definition is_empty (s : string) : bool :=
  match s with EmptyString => true | String _ _ => false end.

Fixpoint lstrip (s : string) : string :=
  match s with
  | String c r => if is_space c then lstrip r else s
  | EmptyString => EmptyString
  end.

(** [rstrip] drops the trailing run of white space. *)
Fixpoint rstrip (s : string) : string :=
  match s with
  | EmptyString => EmptyString
  | String c r =>
      let r' := rstrip r in
      if is_space c && is_empty r' then EmptyString else String c r'
  end.

(** [str.strip()]. *)
Definition strip (s : string) : string := rstrip (lstrip s).

(** [sep.join(parts)]. *)
Fixpoint join (sep : string) (parts : list string) : string :=
  match parts with
  | [] => EmptyString
  | [p] => p
  | p :: ps => p ++ sep ++ join sep ps
  end.

(** [str.split()] with no argument: the maximal runs of characters that are
    not white space.  [cur] is the run being read, in reverse. *)
Fixpoint split_from (cur : list ascii) (s : string) : list string :=
  match s with
  | EmptyString =>
      match cur with
      | [] => []
      | _ => [string_of_list_ascii (rev cur)]
      end
  | String c r =>
      if is_space c then
        match cur with
        | [] => split_from [] r
        | _ => string_of_list_ascii (rev cur) :: split_from [] r
        end
      else split_from (c :: cur) r
  end.

Definition split (s : string) : list string := split_from [] s.

(** [text.replace(",", "")]. *)
Fixpoint remove_commas (s : string) : string :=
  match s with
  | EmptyString => EmptyString
  | String c r =>
      if (code c =? 44)%N then remove_commas r else String c (remove_commas r)
  end.

(** ** Regular expressions of the parser *)

Fixpoint take_digits (s : string) : string * string :=
  match s with
  | String c r =>
      if is_digit c then
        let (ds, rest) := take_digits r in (String c ds, rest)
      else (EmptyString, s)
  | EmptyString => (EmptyString, EmptyString)
  end.

(** The optional group [(?:\.[0-9]{1,2})?], greedy: a dot and one or two
    digits when they follow, nothing otherwise. *)
Definition fraction_part (s : string) : string :=
  match s with
  | String dot (String d1 r1) =>
      if (code dot =? 46)%N && is_digit d1 then
        match r1 with
        | String d2 _ =>
            if is_digit d2 then String dot (String d1 (String d2 EmptyString))
            else String dot (String d1 EmptyString)
        | EmptyString => String dot (String d1 EmptyString)
        end
      else EmptyString
  | _ => EmptyString
  end.

(** The pattern after its leading dollar sign: [\s*([0-9]+(?:\.[0-9]{1,2})?)]
    anchored at the head of [s]; the result is group 1. *)
Definition money_match_here (s : string) : option string :=
  let (ds, rest) := take_digits (lstrip s) in
  if is_empty ds then None else Some (ds ++ fraction_part rest)%string.

(** [_MONEY_RE.search(s)]: the leftmost match of
    [\$\s*([0-9]+(?:\.[0-9]{1,2})?)], as its group 1. *)
Fixpoint _MONEY_RE_search (s : string) : option string :=
  match s with
  | EmptyString => None
  | String c r =>
      if (code c =? 36)%N then
        match money_match_here r with
        | Some g => Some g
        | None => _MONEY_RE_search r
        end
      else _MONEY_RE_search r
  end.

(** [w] matched at the head of [s], ignoring case; the result is what
    follows the match. *)
Fixpoint match_word_ci (w s : string) : option string :=
  match w with
  | EmptyString => Some s
  | String a w' =>
      match s with
      | String c r =>
          if (code (lower a) =? code (lower c))%N then match_word_ci w' r
          else None
      | EmptyString => None
      end
  end.

(** [re.compile(w1 \s* w2, re.I).search(s)] as a truth value. *)
Fixpoint label_search (w1 w2 s : string) : bool :=
  let here :=
    match match_word_ci w1 s with
    | Some r =>
        match match_word_ci w2 (lstrip r) with
        | Some _ => true
        | None => false
        end
    | None => false
    end in
  here ||
  match s with
  | EmptyString => false
  | String _ r => label_search w1 w2 r
  end.

Definition lowest_price_re : string -> bool := label_search "Lowest" "Price".
Definition median_sale_re : string -> bool := label_search "Median" "Sale".

(** [re.compile(r"\bBuy\b", re.I).search(s)] as a truth value.
    [prev_word] tells whether the character before [s] is a word
    character. *)
Fixpoint buy_search (prev_word : bool) (s : string) : bool :=
  let here :=
    negb prev_word &&
    match match_word_ci "Buy" s with
    | Some (String c _) => negb (is_word c)
    | Some EmptyString => true
    | None => false
    end in
  here ||
  match s with
  | EmptyString => false
  | String c r => buy_search (is_word c) r
  end.

Definition buy_re : string -> bool := buy_search false.

(** ** Python floats *)

Local Open Scope float_scope.

Fixpoint pow10 (k : nat) : positive :=
  match k with
  | O => 1%positive
  | S k' => (10 * pow10 k')%positive
  end.

(** The correctly rounded binary64 value of [n / 10^k]; a quotient too large
    for the format is [infinity]. *)
Definition float_of_decimal (n : N) (k : nat) : float :=
  match n with
  | N0 => zero
  | Npos p =>
      SF2Prim (SFdiv prec emax (S754_finite false p 0%Z)
                 (S754_finite false (pow10 k) 0%Z))
  end.

Definition digit_value (c : ascii) : N := (code c - 48)%N.

(** The number a string of digits writes, after [acc]. *)
Fixpoint digits_value (acc : N) (s : string) : N :=
  match s with
  | EmptyString => acc
  | String c r => digits_value (10 * acc + digit_value c)%N r
  end.

Fixpoint all_digits (s : string) : bool :=
  match s with
  | EmptyString => true
  | String c r => is_digit c && all_digits r
  end.

(** The builtin [float] on the literals the parser hands it: digits,
    optionally followed by a dot and more digits.  [None] stands for the
    [ValueError] of a string that is no such literal. *)
Definition py_float (s : string) : option float :=
  let (ip, rest) := take_digits s in
  if is_empty ip then None
  else
    match rest with
    | EmptyString => Some (float_of_decimal (digits_value 0 ip) 0)
    | String dot fp =>
        if (code dot =? 46)%N && all_digits fp then
          Some (float_of_decimal (digits_value (digits_value 0 ip) fp)
                  (String.length fp))
        else None
    end.

(** Truth value of a float: [bool(x)] is [x != 0.0]. *)
Definition truthy (x : float) : bool := negb (x =? 0).

(** [min(l)] on a list with head [x]: the running minimum is replaced by an
    item that compares strictly below it. *)
Definition py_min (x : float) (l : list float) : float :=
  fold_left (fun cur item => if item <? cur then item else cur) l x.

(** [sorted(l)]: a stable sort by [<].  An element is inserted before the
    first element of the sorted tail that is not strictly below it. *)
Fixpoint insert_sorted (x : float) (l : list float) : list float :=
  match l with
  | [] => [x]
  | y :: ys => if y <? x then y :: insert_sorted x ys else x :: l
  end.

Definition sorted (l : list float) : list float :=
  fold_right insert_sorted [] l.

(** ** The parsed document *)

(** A BeautifulSoup tree: text nodes and tags with their contents.  The
    soup itself is the tag at the root.  A text node is a string of the
    class [NavigableString] itself; the strings bs4 keeps in classes of
    their own (comments, declarations, the contents of [script], [style]
    and [template] elements), which [get_text] leaves out, have no place in
    these trees. *)
Inductive node : Type :=
| NavigableString (s : string)
| Tag (name : string) (contents : list node).

(** The text nodes below a node, in document order. *)
Fixpoint strings (n : node) : list string :=
  match n with
  | NavigableString s => [s]
  | Tag _ cs => flat_map strings cs
  end.

(** [n.get_text(" ", strip=True)]: the stripped text nodes that are not
    empty, joined by one space. *)
Definition get_text (n : node) : string :=
  join " " (filter (fun s => negb (is_empty s)) (map strip (strings n))).

(** The parents of the text nodes that [re] matches, one per matching node,
    in document order: [lbl.parent for lbl in n.find_all(text=re)]. *)
Fixpoint label_parents (re : string -> bool) (n : node) : list node :=
  match n with
  | NavigableString _ => []
  | Tag _ cs =>
      flat_map (fun c =>
                  match c with
                  | NavigableString s => if re s then [n] else []
                  | Tag _ _ => label_parents re c
                  end) cs
  end.

(** [n.find(text=re)]: the first text node below [n] that [re] matches. *)
Definition find_text (re : string -> bool) (n : node) : option string :=
  find re (strings n).

(** [n.find_all(name)]: the tags called [name] below [n], in document
    order. *)
Fixpoint find_all (name : string) (n : node) : list node :=
  match n with
  | NavigableString _ => []
  | Tag _ cs =>
      flat_map (fun c =>
                  match c with
                  | NavigableString _ => []
                  | Tag nm _ =>
                      (if (nm =? name)%string then [c] else [])
                        ++ find_all name c
                  end) cs
  end.

(** [soup.select("table tr")]: the [tr] tags that have a [table] above
    them.  [inside] tells whether a [table] encloses [n]. *)
Fixpoint select_table_tr (inside : bool) (n : node) : list node :=
  match n with
  | NavigableString _ => []
  | Tag name cs =>
      (if inside && (name =? "tr")%string then [n] else [])
        ++ flat_map
             (select_table_tr (inside || (name =? "table")%string)) cs
  end.

(** ** parse_event.py *)

(** The result of a call: a value, or an exception that leaves the
    function. *)
Inductive outcome (A : Type) : Type :=
| Returned (a : A)
| Raised.
Arguments Returned {A} a.
Arguments Raised {A}.

(** [_parse_money] (lines 24-33).  The [try] around [float] turns its
    exception into [None]. *)
Definition _parse_money (text : string) : option float :=
  if is_empty text then None
  else
    match _MONEY_RE_search (remove_commas text) with
    | None => None
    | Some g =>
        match py_float g with
        | Some v => Some v
        | None => None
        end
    end.

Record PriceSummary : Type := {
  lowest_price : option float;
  median_sale : option float;
  computed_min_price : option float;
  num_listings : option Z;
  all_prices : list float
}.

(** The loops over the labelled regions: the first region, in document
    order, whose text holds an amount. *)
Fixpoint first_amount (parents : list node) : option float :=
  match parents with
  | [] => None
  | parent :: rest =>
      let texts := join " " (split (get_text parent)) in
      match _parse_money texts with
      | Some maybe => Some maybe
      | None => first_amount rest
      end
  end.

(** The loop over the cells of a row: the first cell whose amount is
    truthy. *)
Fixpoint first_price (td_texts : list string) : option float :=
  match td_texts with
  | [] => None
  | td :: rest =>
      match _parse_money td with
      | Some price => if truthy price then Some price else first_price rest
      | None => first_price rest
      end
  end.

(** A row is kept when [tr.find(text=Buy)] is truthy. *)
Definition has_buy (tr : node) : bool :=
  match find_text buy_re tr with
  | Some s => negb (is_empty s)
  | None => false
  end.

(** The loop over the rows: the prices appended, in row order. *)
Fixpoint row_prices (rows : list node) : list float :=
  match rows with
  | [] => []
  | tr :: rest =>
      if negb (has_buy tr) then row_prices rest
      else
        let td_texts := map get_text (find_all "td" tr) in
        match first_price td_texts with
        | Some price => price :: row_prices rest
        | None => row_prices rest
        end
  end.

(** [parse_prices_summary] (lines 36-98), from the soup on.  The call of
    [float] in the fallback (line 64) is outside any [try]: its exception
    would leave the function. *)
Definition parse_prices_summary (soup : node) : outcome PriceSummary :=
  let labelled := first_amount (label_parents lowest_price_re soup) in
  let fallback : outcome (option float) :=
    match labelled with
    | Some v => Returned (Some v)
    | None =>
        match _MONEY_RE_search (get_text soup) with
        | None => Returned None
        | Some g =>
            match py_float g with
            | Some v => Returned (Some v)
            | None => Raised
            end
        end
    end in
  match fallback with
  | Raised => Raised
  | Returned lowest =>
      let median := first_amount (label_parents median_sale_re soup) in
      let prices := row_prices (select_table_tr false soup) in
      Returned {|
        lowest_price := lowest;
        median_sale := median;
        computed_min_price :=
          match prices with [] => None | x :: l => Some (py_min x l) end;
        num_listings :=
          match prices with
          | [] => None
          | _ => Some (Z.of_nat (List.length prices))
          end;
        all_prices := match prices with [] => [] | _ => sorted prices end
      |}
  end.

(** ** monitor.py: the history store *)

(** A row of the history file as [csv.DictReader] yields it.  Only the
    column [read_last_lowest] reads is kept; [None] is a row too short to
    have the column, or a file whose header lacks it. *)
Record csv_row : Type := {
  field_lowest_price : option string
}.

(** What opening and reading [HISTORY_CSV] gives: no file, rows up to the
    end of the file, or rows up to an exception of [open] or of the
    reader. *)
Inductive history_file : Type :=
| Missing
| Readable (rows : list csv_row)
| Broken (rows : list csv_row).

(** Truth value of [row.get("lowest_price")]. *)
Definition field_truthy (f : option string) : bool :=
  match f with
  | Some s => negb (is_empty s)
  | None => false
  end.

Section HistoryStore.

(** The builtin [float] on an arbitrary field of the file; [None] stands
    for [ValueError].  The fields are any text, so the function is taken
    as it comes. *)
Variable builtin_float : string -> option float.

(** The list comprehension of [read_last_lowest]: the floats of the truthy
    fields, or the exception of the first field that is no float. *)
Fixpoint lows_of (rows : list csv_row) : outcome (list float) :=
  match rows with
  | [] => Returned []
  | row :: rest =>
      if field_truthy (field_lowest_price row) then
        match field_lowest_price row with
        | Some s =>
            match builtin_float s with
            | Some v =>
                match lows_of rest with
                | Returned lows => Returned (v :: lows)
                | Raised => Raised
                end
            | None => Raised
            end
        | None => Raised
        end
      else lows_of rest
  end.

(** [read_last_lowest] (lines 51-62): an exception anywhere in the [try]
    gives [None]. *)
Definition read_last_lowest (file : history_file) : option float :=
  match file with
  | Missing => None
  | Broken _ => None
  | Readable rows =>
      match lows_of rows with
      | Returned (x :: l) => Some (py_min x l)
      | Returned [] => None
      | Raised => None
      end
  end.

End HistoryStore.

(** ** monitor.py: one cycle of the loop *)

(** [last_state] when it is not the empty dictionary. *)
Record LastState : Type := {
  last_lowest_price : option float;
  last_num_listings : option Z;
  last_all_prices : list float
}.

(** What the loop carries from one cycle to the next.  [last_state] is
    [None] for the empty dictionary, which is falsy. *)
Record MonitorState : Type := {
  all_time_low : option float;
  last_state : option LastState
}.

(** The messages appended to [trigger_msgs], each with the values its
    format string interpolates. *)
Inductive alert : Type :=
| TargetHit (lp target_price : float)
| NewLow (effective_low : float) (old : option float)
| Posted (diff num_listings : Z)
| Sold (abs_diff num_listings : Z)
| PriceChange (up : bool) (last_lowest lp : float)
| MarketUpdate (lowest_5 : list float) (median_bottom_10 : float).

(** [[v for v in l if v is not None]]. *)
Fixpoint not_none (l : list (option float)) : list float :=
  match l with
  | [] => []
  | Some v :: rest => v :: not_none rest
  | None :: rest => not_none rest
  end.

(** [min(l, default=None)]. *)
Definition min_default (l : list float) : option float :=
  match l with
  | [] => None
  | x :: rest => Some (py_min x rest)
  end.

Definition effective_low_of (summary : PriceSummary) : option float :=
  min_default
    (not_none [lowest_price summary; computed_min_price summary]).

(** The tolerance [1e-9] and the threshold [0.01], as the doubles the
    interpreter reads. *)
Definition tolerance : float := 0x1.12e0be826d695p-30.
Definition threshold : float := 0x1.47ae147ae147bp-7.

Section Cycle.

Variable target_price : float.
Variable notify_on_new_low : bool.

(** The price target alert (lines 210-213). *)
Definition target_alerts (summary : PriceSummary) : list alert :=
  match lowest_price summary with
  | Some lp =>
      if (0 <? target_price) && (lp <=? target_price)
      then [TargetHit lp target_price] else []
  | None => []
  end.

(** The new all-time low alert (lines 216-225), with [all_time_low] after
    it. *)
Definition new_low_alerts (low : option float) (summary : PriceSummary)
  : list alert * option float :=
  if notify_on_new_low then
    match effective_low_of summary with
    | Some effective_low =>
        if match low with
           | None => true
           | Some l => effective_low <? l - tolerance
           end
        then ([NewLow effective_low low], Some effective_low)
        else ([], low)
    | None => ([], low)
    end
  else ([], low).

(** The change of the listing count (lines 228-242), inside the guard
    [last_state and num_listings is not None]. *)
Definition listing_alerts (last : option LastState)
  (summary : PriceSummary) : list alert :=
  match last, num_listings summary with
  | Some ls, Some n =>
      match last_num_listings ls with
      | Some last_num =>
          if negb (n =? last_num)%Z then
            let diff := (n - last_num)%Z in
            if (diff >? 0)%Z then [Posted diff n]
            else [Sold (Z.abs diff) n]
          else []
      | None => []
      end
  | _, _ => []
  end.

(** The change of the lowest price (lines 244-254), inside the same
    guard. *)
Definition price_alerts (last : option LastState)
  (summary : PriceSummary) : list alert :=
  match last, num_listings summary with
  | Some ls, Some _ =>
      match last_lowest_price ls, lowest_price summary with
      | Some last_lowest, Some lp =>
          if threshold <? abs (lp - last_lowest)
          then [PriceChange (last_lowest <? lp) last_lowest lp]
          else []
      | _, _ => []
      end
  | _, _ => []
  end.

(** [movement_detected] after the two rules. *)
Definition movement_detected (last : option LastState)
  (summary : PriceSummary) : bool :=
  negb (match listing_alerts last summary with [] => true | _ => false end)
  || negb (match price_alerts last summary with [] => true | _ => false end).

(** [l[:k] if len(l) >= k else l]. *)
Definition lowest (k : nat) (l : list float) : list float :=
  if (k <=? List.length l)%nat then firstn k l else l.

(** The market summary (lines 256-269).  The index [len // 2] is inside a
    list that is not empty, so the default of [nth] is never read. *)
Definition market_alerts (moved : bool) (summary : PriceSummary)
  : list alert :=
  match moved, all_prices summary with
  | true, _ :: _ =>
      let lowest_5 := lowest 5 (all_prices summary) in
      let bottom_10 := lowest 10 (all_prices summary) in
      match bottom_10 with
      | _ :: _ =>
          let median_bottom_10 :=
            nth (List.length bottom_10 / 2) (sorted bottom_10) 0 in
          [MarketUpdate lowest_5 median_bottom_10]
      | [] => []
      end
  | _, _ => []
  end.

(** The body of the loop of [main] after the page is parsed and the row
    appended (lines 193-276): [trigger_msgs] at the end of the cycle and the
    state the next cycle starts from. *)
Definition detect (st : MonitorState) (summary : PriceSummary)
  : list alert * MonitorState :=
  let (low_msgs, low) := new_low_alerts (all_time_low st) summary in
  let trigger_msgs :=
    target_alerts summary
      ++ low_msgs
      ++ listing_alerts (last_state st) summary
      ++ price_alerts (last_state st) summary
      ++ market_alerts (movement_detected (last_state st) summary) summary
  in
  (trigger_msgs,
   {| all_time_low := low;
      last_state :=
        Some {| last_lowest_price := lowest_price summary;
                last_num_listings := num_listings summary;
                last_all_prices := all_prices summary |} |}).

End Cycle.

(** ** Reading the messages of a cycle *)

Definition is_target_hit (a : alert) : bool :=
  match a with TargetHit _ _ => true | _ => false end.

Definition is_new_low (a : alert) : bool :=
  match a with NewLow _ _ => true | _ => false end.

Definition is_listing_change (a : alert) : bool :=
  match a with Posted _ _ | Sold _ _ => true | _ => false end.

Definition is_price_change (a : alert) : bool :=
  match a with PriceChange _ _ _ => true | _ => false end.

Definition is_market_update (a : alert) : bool :=
  match a with MarketUpdate _ _ => true | _ => false end.

(** The messages of one cycle. *)
Definition alerts_of (target_price : float) (notify_on_new_low : bool)
  (st : MonitorState) (summary : PriceSummary) : list alert :=
  fst (detect target_price notify_on_new_low st summary).

(** The state after one cycle. *)
Definition state_after (target_price : float) (notify_on_new_low : bool)
  (st : MonitorState) (summary : PriceSummary) : MonitorState :=
  snd (detect target_price notify_on_new_low st summary).

(** The listing count and the lowest price of the prior observation, when
    there is one. *)
Definition prior_count (st : MonitorState) : option Z :=
  match last_state st with
  | Some ls => last_num_listings ls
  | None => None
  end.

Definition prior_lowest (st : MonitorState) : option float :=
  match last_state st with
  | Some ls => last_lowest_price ls
  | None => None
  end.

(** ** The order of floats *)

(** A key that orders the floats that are no NaN: the class (negative
    infinity, negative, zero, positive, positive infinity), then exponent
    and mantissa, both reversed below zero. *)
Definition sf_key (s : spec_float) : option (Z * Z * Z) :=
  match s with
  | S754_nan => None
  | S754_zero _ => Some (0, 0, 0)%Z
  | S754_infinity false => Some (2, 0, 0)%Z
  | S754_infinity true => Some (-2, 0, 0)%Z
  | S754_finite false m e => Some (1, e, Zpos m)%Z
  | S754_finite true m e => Some (-1, - e, Zneg m)%Z
  end.

Definition fkey (x : float) : option (Z * Z * Z) := sf_key (Prim2SF x).

(** Lexicographic comparison of keys. *)
Definition key_compare (a b : Z * Z * Z) : comparison :=
  let '(a1, a2, a3) := a in
  let '(b1, b2, b3) := b in
  match (a1 ?= b1)%Z with
  | Eq => match (a2 ?= b2)%Z with
          | Eq => (a3 ?= b3)%Z
          | c => c
          end
  | c => c
  end.

Definition key_lt (a b : Z * Z * Z) : Prop :=
  let '(a1, a2, a3) := a in
  let '(b1, b2, b3) := b in
  (a1 < b1 \/ a1 = b1 /\ (a2 < b2 \/ a2 = b2 /\ a3 < b3))%Z.

Definition key_ltb (a b : Z * Z * Z) : bool :=
  match key_compare a b with Lt => true | _ => false end.

(** A float that is no NaN. *)
Definition ordered (x : float) : Prop := fkey x <> None.

(** [x <= y] as a relation. *)
Definition fle (x y : float) : Prop := (x <=? y) = true.

(** The float is no NaN and has the sign [sx]. *)
Definition has_sign (sx : bool) (s : spec_float) : bool :=
  match s with
  | S754_nan => false
  | S754_zero b | S754_infinity b | S754_finite b _ _ => Bool.eqb b sx
  end.

(** ** Rounding to the format *)

Section RoundingShapes.

Local Open Scope Z_scope.

Variables prec emax : Z.

(** What a rounding returns, from the mantissa [m3] and the exponent [e3]
    it ends with. *)
Definition round_result (sx : bool) (m3 e3 : Z) : spec_float :=
  match m3 with
  | Z0 => S754_zero sx
  | Zpos p =>
      if e3 <=? emax - prec then S754_finite sx p e3 else S754_infinity sx
  | Zneg _ => S754_nan
  end.

(** The second half of a rounding: a carry may add a digit, which is cut
    again. *)
Definition second_cut (E m2 e3 m3 : Z) : Prop :=
  (SpecFloat.fexp prec emax (Zdigits2 m2 + E) <= E /\ e3 = E /\ m3 = m2)
  \/ (E < SpecFloat.fexp prec emax (Zdigits2 m2 + E)
      /\ e3 = SpecFloat.fexp prec emax (Zdigits2 m2 + E) /\ m3 = m2 / 2 ^ (e3 - E)).

End RoundingShapes.

(** ** Sample documents and rows *)

(** A page with a "Lowest Price" label, a header row and three rows to
    buy, priced 150, 100 (after a cell of $0.00) and 130. *)
Definition page_three_rows : node :=
  Tag "[document]"
    [ Tag "div" [ Tag "span" [NavigableString "Lowest Price"];
                  NavigableString " $120.00 " ];
      Tag "table"
        [ Tag "tr" [ Tag "th" [NavigableString "Price"] ];
          Tag "tr" [ Tag "td" [NavigableString "Sec 1"];
                     Tag "td" [NavigableString "$150"];
                     Tag "td" [Tag "a" [NavigableString "Buy"]] ];
          Tag "tr" [ Tag "td" [NavigableString "$0.00"];
                     Tag "td" [NavigableString "$100"];
                     Tag "td" [Tag "a" [NavigableString "Buy now"]] ];
          Tag "tr" [ Tag "td" [NavigableString "$130"];
                     Tag "td" [Tag "a" [NavigableString "buy"]] ] ] ].

(** A page whose only table row offers nothing to buy. *)
Definition page_without_buy : node :=
  Tag "[document]"
    [ Tag "p" [NavigableString "Sold out"];
      Tag "table"
        [ Tag "tr" [ Tag "td" [NavigableString "$80"];
                     Tag "td" [NavigableString "Buyer protection"] ] ] ].

(** A page with no label, whose text holds one amount written with a
    thousands separator. *)
Definition page_with_commas : node :=
  Tag "[document]" [ Tag "p" [NavigableString "From $1,234.50"] ].

(** The texts of the truthy [lowest_price] fields of the rows, in order. *)
Fixpoint lowest_fields (rows : list csv_row) : list string :=
  match rows with
  | [] => []
  | row :: rest =>
      match field_lowest_price row with
      | Some s => if is_empty s then lowest_fields rest
                  else s :: lowest_fields rest
      | None => lowest_fields rest
      end
  end.

(** ** The order of the messages *)

(** The place of a message in [trigger_msgs]: the rules append in this
    order. *)
Definition alert_rank (a : alert) : nat :=
  match a with
  | TargetHit _ _ => 0
  | NewLow _ _ => 1
  | Posted _ _ | Sold _ _ => 2
  | PriceChange _ _ _ => 3
  | MarketUpdate _ _ => 4
  end.

(** ** Text without a dollar sign *)

Fixpoint has_dollar (s : string) : bool :=
  match s with
  | EmptyString => false
  | String c r => (code c =? 36)%N || has_dollar r
  end.

(** A document none of whose text nodes holds a dollar sign. *)
Definition dollar_free (n : node) : Prop :=
  Forall (fun t => has_dollar t = false) (strings n).

(** ** monitor.py: the last recorded state *)

(** A row of the history file with the three columns [read_last_state]
    reads.  [None] is a row too short to have the column, or a header
    without it; for [all_prices] both read as an empty list. *)
Record csv_record : Type := {
  col_lowest_price : option string;
  col_num_listings : option string;
  col_all_prices : option string
}.

(** What opening and reading the history gives, each row with its three
    columns: no file, the rows up to the end, or the rows up to an
    exception. *)
Inductive history : Type :=
| Absent
| Rows (records : list csv_record)
| Failing (records : list csv_record).

(** The same file as [read_last_lowest] sees it. *)
Definition lowest_column (h : history) : history_file :=
  let column :=
    map (fun r => {| field_lowest_price := col_lowest_price r |}) in
  match h with
  | Absent => Missing
  | Rows records => Readable (column records)
  | Failing records => Broken (column records)
  end.

Definition is_bracket (c : ascii) : bool :=
  ((code c =? 91) || (code c =? 93))%N.

Fixpoint lstrip_brackets (s : string) : string :=
  match s with
  | String c r => if is_bracket c then lstrip_brackets r else s
  | EmptyString => EmptyString
  end.

Fixpoint rstrip_brackets (s : string) : string :=
  match s with
  | EmptyString => EmptyString
  | String c r =>
      let r' := rstrip_brackets r in
      if is_bracket c && is_empty r' then EmptyString else String c r'
  end.

(** [s.strip("[]")]: the brackets at both ends are dropped. *)
Definition strip_brackets (s : string) : string :=
  rstrip_brackets (lstrip_brackets s).

(** [s.split(",")]: the pieces between the commas, empty ones included.
    [cur] is the piece being read, in reverse. *)
Fixpoint split_comma_from (cur : list ascii) (s : string) : list string :=
  match s with
  | EmptyString => [string_of_list_ascii (rev cur)]
  | String c r =>
      if (code c =? 44)%N
      then string_of_list_ascii (rev cur) :: split_comma_from [] r
      else split_comma_from (c :: cur) r
  end.

Definition split_comma (s : string) : list string := split_comma_from [] s.

Section LastRecordedState.

(** The builtins [float] and [int] on an arbitrary field of the file;
    [None] stands for [ValueError]. *)
Variable builtin_float : string -> option float.
Variable builtin_int : string -> option Z.

(** [[float(p.strip()) for p in pieces]]. *)
Fixpoint floats_of (pieces : list string) : outcome (list float) :=
  match pieces with
  | [] => Returned []
  | p :: rest =>
      match builtin_float (strip p) with
      | Some v =>
          match floats_of rest with
          | Returned l => Returned (v :: l)
          | Raised => Raised
          end
      | None => Raised
      end
  end.

(** The price list of the last row (lines 78-87); the inner [try] turns a
    piece that is no float into an empty list. *)
Definition parse_all_prices (field : option string) : list float :=
  match field with
  | None => []
  | Some all_prices_str =>
      if is_empty all_prices_str || (all_prices_str =? "[]")%string then []
      else
        let prices_str := strip_brackets all_prices_str in
        if is_empty prices_str then []
        else
          match floats_of (split_comma prices_str) with
          | Returned l => l
          | Raised => []
          end
  end.

(** [read_last_state] (lines 65-103).  [None] is the empty dictionary; the
    outer [try] returns it for any exception, among them a lowest price or
    a listing count of the last row that does not convert. *)
Definition read_last_state (h : history) : option LastState :=
  match h with
  | Absent => None
  | Failing _ => None
  | Rows rows =>
      match last (map Some rows) None with
      | None => None
      | Some last_row =>
          let all_prices := parse_all_prices (col_all_prices last_row) in
          let lowest : outcome (option float) :=
            if field_truthy (col_lowest_price last_row) then
              match col_lowest_price last_row with
              | Some s =>
                  match builtin_float s with
                  | Some v => Returned (Some v)
                  | None => Raised
                  end
              | None => Raised
              end
            else Returned None in
          let count : outcome (option Z) :=
            if field_truthy (col_num_listings last_row) then
              match col_num_listings last_row with
              | Some s =>
                  match builtin_int s with
                  | Some n => Returned (Some n)
                  | None => Raised
                  end
              | None => Raised
              end
            else Returned None in
          match lowest, count with
          | Returned lp, Returned n =>
              Some {| last_lowest_price := lp;
                      last_num_listings := n;
                      last_all_prices := all_prices |}
          | _, _ => None
          end
      end
  end.

End LastRecordedState.

(** The builtin [int] on the literals the loop writes: an optional minus
    sign and digits.  [None] stands for [ValueError]. *)
Definition py_int (s : string) : option Z :=
  match s with
  | String c r =>
      if (code c =? 45)%N then
        if all_digits r && negb (is_empty r)
        then Some (- Z.of_N (digits_value 0 r))%Z else None
      else if all_digits s then Some (Z.of_N (digits_value 0 s)) else None
  | EmptyString => None
  end.

(** ** monitor.py: the row a cycle writes *)

(** [str(n)] of an integer. *)
Definition str_int (n : Z) : string :=
  DecimalString.NilZero.string_of_int (Z.to_int n).

Section WrittenRow.

(** [str(x)] of a float, the shortest text that [float] reads back as
    [x]; taken as it comes. *)
Variable py_repr : float -> string.

(** [str(l)] of a list of floats. *)
Definition str_float_list (l : list float) : string :=
  ("[" ++ join ", " (map py_repr l) ++ "]")%string.


(** What [csv.DictWriter] writes for a float that may be missing. *)
Definition str_optional (v : option float) : string :=
  match v with
  | Some x => py_repr x
  | None => EmptyString
  end.

(** The row of a cycle (lines 181-190) as [csv.DictWriter] lays it out: the
    values in the order of the field names.  [now] is the time stamp of the
    cycle. *)
Definition history_line (now event_url : string) (summary : PriceSummary)
  : list string :=
  [ now;
    str_optional (lowest_price summary);
    str_optional (lowest_price summary);
    str_optional (computed_min_price summary);
    str_optional (median_sale summary);
    match num_listings summary with
    | Some n => str_int n
    | None => EmptyString
    end;
    event_url;
    str_float_list (all_prices summary) ].

End WrittenRow.

(** ** monitor.py: the history file on disk *)

(** A line of the file as [csv.reader] yields it: its fields.  The quotes
    [csv.writer] puts around a field, and the reader takes off, are the
    library's. *)
Definition csv_line : Type := list string.

(** The header [append_history] writes (lines 110-119). *)
Definition fieldnames : csv_line :=
  [ "timestamp"; "lowest_price"; "page_lowest_price"; "computed_min_price";
    "median_sale"; "num_listings"; "event_url"; "all_prices" ].

(** The history file: [None] when it does not exist, its lines otherwise,
    each with its line end. *)
Definition disk : Type := option (list csv_line).

(** [append_history] (lines 106-125): the header is written when the file
    does not exist yet (lines 108 and 123-124), and only then; the row
    follows. *)
Definition append_history (d : disk) (row : csv_line) : disk :=
  match d with
  | None => Some [fieldnames; row]
  | Some lines => Some (lines ++ [row])
  end.

(** [row.get(key)] of the dictionary [csv.DictReader] makes of a line under
    a header: [dict(zip(header, line))], then [None] under the names the
    line is too short for; of two columns with one name the later wins.
    [cur] is the value found so far. *)
Fixpoint dict_get (key : string) (header line : csv_line)
  (cur : option string) : option string :=
  match header with
  | [] => cur
  | name :: names =>
      let value := match line with [] => None | v :: _ => Some v end in
      dict_get key names (tl line)
        (if (name =? key)%string then value else cur)
  end.

(** The three columns [read_last_state] reads, of a line under a
    header. *)
Definition record_of (header line : csv_line) : csv_record :=
  {| col_lowest_price := dict_get "lowest_price" header line None;
     col_num_listings := dict_get "num_listings" header line None;
     col_all_prices := dict_get "all_prices" header line None |}.

Definition is_blank (line : csv_line) : bool :=
  match line with [] => true | _ :: _ => false end.

(** [list(csv.DictReader(f))]: the first line of the file is taken as the
    header, whatever it holds; blank lines after it are passed over. *)
Definition dict_reader (lines : list csv_line) : list csv_record :=
  match lines with
  | [] => []
  | header :: rest =>
      map (record_of header) (filter (fun l => negb (is_blank l)) rest)
  end.

(** What [read_last_lowest] and [read_last_state] find on the disk when
    the reading goes through. *)
Definition on_disk (d : disk) : history :=
  match d with
  | None => Absent
  | Some lines => Rows (dict_reader lines)
  end.

(** The rows of the disk as the readers see them. *)
Definition records (d : disk) : list csv_record :=
  match d with
  | None => []
  | Some lines => dict_reader lines
  end.


Fixpoint all_chars (p : ascii -> bool) (s : string) : bool :=
  match s with
  | EmptyString => true
  | String c r => p c && all_chars p r
  end.


(** A stand-in for [str] on four floats, for running the functions. *)
Definition sample_repr (x : float) : string :=
  if x =? 100 then "100.0"
  else if x =? 130 then "130.0"
  else if x =? 150 then "150.0"
  else "120.0".

(** A page with a "Buy" row but no amount anywhere. *)
Definition page_sold_out : node :=
  Tag "[document]"
    [ Tag "h1" [NavigableString "Lowest Price: sold out"];
      Tag "table"
        [ Tag "tr" [ Tag "td" [NavigableString "Section 12"];
                     Tag "td" [Tag "a" [NavigableString "Buy"]] ] ] ].

(** ** monitor.py: the loop *)

(** What a cycle meets outside the process: a fetch that raises or markup
    that the tree builder rejects (either leaves the [try] before there is
    a summary), or the tree of the page, the time stamp of the cycle and a
    history file that [append_history] can open for appending or cannot
    ([ensure_dirs] or [open] raises, nothing is written). *)
Inductive cycle_input : Type :=
| FetchFails
| Fetched (soup : node) (now : string) (append_ok : bool).

(** The process between two cycles: the state in memory, the history file
    on disk and the message lists handed to the notifier so far. *)
Record process : Type := {
  memory : MonitorState;
  file : disk;
  sent : list (list alert)
}.

Section Loop.

Variable py_repr : float -> string.
Variable event_url : string.
Variable target_price : float.
Variable notify_on_new_low : bool.

(** One pass of the [try] of the loop (lines 174-289).  An exception of
    the fetch, of the parser or of [append_history] comes before any
    assignment to the state and is caught at the end of the pass: the
    process is as before.  The notifier is called when [trigger_msgs] is
    not empty. *)
Definition run_cycle (p : process) (input : cycle_input) : process :=
  match input with
  | FetchFails => p
  | Fetched soup now append_ok =>
      match parse_prices_summary soup with
      | Raised => p
      | Returned summary =>
          if append_ok then
            let (trigger_msgs, st) :=
              detect target_price notify_on_new_low (memory p) summary in
            {| memory := st;
               file :=
                 append_history (file p)
                   (history_line py_repr now event_url summary);
               sent := match trigger_msgs with
                       | [] => sent p
                       | _ :: _ => sent p ++ [trigger_msgs]
                       end |}
          else p
      end
  end.

(** The [while] loop (lines 173-299) over the cycles that start before the
    interrupt: in single-pass mode the first cycle is the last. *)
Fixpoint main_loop (run_once : bool) (inputs : list cycle_input)
  (p : process) : process :=
  match inputs with
  | [] => p
  | input :: rest =>
      let p' := run_cycle p input in
      if run_once then p' else main_loop run_once rest p'
  end.

End Loop.

(** A cycle that gets to the end of its [try]. *)
Definition succeeds (input : cycle_input) : bool :=
  match input with
  | FetchFails => false
  | Fetched _ _ append_ok => append_ok
  end.

(** The cycles a run goes through. *)
Definition attempted (run_once : bool) (inputs : list cycle_input)
  : list cycle_input :=
  if run_once then firstn 1 inputs else inputs.


(** ** monitor.py: amounts in messages *)

(** [n / d] rounded to the nearest integer, ties to the even one: the
    rounding of the format [f]. *)
Definition round_half_even (n d : Z) : Z :=
  let q := (n / d)%Z in
  match (2 * (n mod d) ?= d)%Z with
  | Lt => q
  | Gt => (q + 1)%Z
  | Eq => if Z.even q then q else (q + 1)%Z
  end.

(** The hundredths the format [.2f] prints for the float [m * 2^e]. *)
Definition hundredths (m : positive) (e : Z) : N :=
  Z.to_N
    (if (0 <=? e)%Z then (100 * Zpos m * 2 ^ e)%Z
     else round_half_even (100 * Zpos m) (2 ^ (- e))).

(** The hundredths printed for a float: those of its absolute value. *)
Definition cents_of (x : float) : N :=
  match Prim2SF x with
  | S754_finite _ m e => hundredths m e
  | _ => 0%N
  end.

(** The sign bit of a float. *)
Definition sign_bit (x : float) : bool :=
  match Prim2SF x with
  | S754_zero s => s
  | S754_infinity s => s
  | S754_finite s _ _ => s
  | S754_nan => false
  end.

(** [str(n)] of a natural number. *)
Definition str_nat (n : N) : string :=
  DecimalString.NilZero.string_of_uint (N.to_uint n).

(** The thousands separator of the format [,]: a comma after each digit
    that has a multiple of three digits to its right.  [left] is the length
    of [s]. *)
Fixpoint group_from (left : nat) (s : string) : string :=
  match s with
  | EmptyString => EmptyString
  | String c r =>
      let rest := group_from (pred left) r in
      if (1 <? left)%nat && (Nat.modulo (left - 1) 3 =? 0)%nat
      then String c (String "," rest)
      else String c rest
  end.

Definition group_thousands (s : string) : string :=
  group_from (String.length s) s.

Definition digit_char (d : N) : ascii := ascii_of_N (48 + d).

(** The two digits after the point. *)
Definition two_digits (n : N) : string :=
  String (digit_char (n / 10)) (String (digit_char (n mod 10)) EmptyString).

(** The format [,.2f] on a float. *)
Definition format_comma_2f (x : float) : string :=
  match Prim2SF x with
  | S754_nan => "nan"
  | S754_infinity s => (if s then "-" else "") ++ "inf"
  | _ =>
      (if sign_bit x then "-" else "")
        ++ group_thousands (str_nat (cents_of x / 100))
        ++ "." ++ two_digits (cents_of x mod 100)
  end.

(** [format_usd] (lines 128-131). *)
Definition format_usd (v : option float) : string :=
  match v with
  | None => "N/A"
  | Some x =>
      if is_nan x || is_infinity x then "N/A"
      else "$" ++ format_comma_2f x
  end.

(** ** notifier.py *)

(** The keyword arguments [notify] is called with. *)
Record context : Type := {
  event_url : string;
  ctx_lowest_price : option float;
  ctx_median_sale : option float;
  ctx_num_listings : option Z
}.

(** The format [.2f] on a float. *)
Definition format_2f (x : float) : string :=
  match Prim2SF x with
  | S754_nan => "nan"
  | S754_infinity s => (if s then "-" else "") ++ "inf"
  | _ =>
      (if sign_bit x then "-" else "")
        ++ str_nat (cents_of x / 100)
        ++ "." ++ two_digits (cents_of x mod 100)
  end.

(** The texts of the context block of [_post_slack] (lines 25-57). *)
Definition context_elements (ctx : context) : list string :=
  [ ("*Event:* <" ++ event_url ctx ++ ">")%string;
    match ctx_lowest_price ctx with
    | Some v => ("*Lowest:* $" ++ format_2f v)%string
    | None => "*Lowest:* N/A"%string
    end;
    match ctx_median_sale ctx with
    | Some v => ("*Median:* $" ++ format_2f v)%string
    | None => "*Median:* N/A"%string
    end;
    match ctx_num_listings ctx with
    | Some n => ("*Listings:* " ++ str_int n)%string
    | None => "*Listings:* N/A"%string
    end ].

(** What the notifier does to the world: a request to the webhook with the
    text and the texts of the context block, or an alert printed on the
    console. *)
Inductive effect : Type :=
| Post (url text : string) (elements : list string)
| Print (message : string) (ctx : context).

(** [Notifier.__init__]: the webhook is [SLACK_WEBHOOK_URL] stripped, empty
    when the variable is not set. *)
Definition Notifier (env : option string) : string :=
  strip match env with Some s => s | None => EmptyString end.

(** [_post_slack] (lines 15-71).  [post_ok] tells whether the request goes
    through: an exception of [requests.post] or of [raise_for_status] is
    caught and gives [False]. *)
Definition _post_slack (slack_webhook : string) (post_ok : bool)
  (text : string) (ctx : context) : list effect * bool :=
  if is_empty slack_webhook then ([], false)
  else ([Post slack_webhook text (context_elements ctx)], post_ok).

(** [notify] (lines 73-80). *)
Definition notify (slack_webhook : string) (post_ok : bool)
  (message : string) (ctx : context) : list effect :=
  if is_empty slack_webhook then [Print message ctx]
  else
    let (done, ok) := _post_slack slack_webhook post_ok message ctx in
    if ok then done else done ++ [Print message ctx].

Definition is_post (e : effect) : bool :=
  match e with Post _ _ _ => true | Print _ _ => false end.

(** ** monitor.py: the state a run starts from *)


(** ** parse_event.py: from the markup to the tree *)

Section Markup.

(** [BeautifulSoup(html, "html.parser")] (line 47): the tree of the page,
    or the exception [ParserRejectedMarkup] for markup the HTML parser
    gives up on.  The tree builder is the library's and is taken as it
    comes. *)
Variable BeautifulSoup : string -> outcome node.

(** [parse_prices_summary] (lines 36-98) from the markup on.  Line 47 is
    outside any [try]: the exception of the tree builder leaves the
    function. *)
Definition parse_prices_summary_of_html (html : string)
  : outcome PriceSummary :=
  match BeautifulSoup html with
  | Raised => Raised
  | Returned soup => parse_prices_summary soup
  end.

End Markup.

(** The keywords of a marked section that [parse_marked_section] of
    Python's [_markupbase] knows. *)
Definition known_keywords : list string :=
  [ "temp"; "cdata"; "ignore"; "include"; "rcdata"; "if"; "else"; "endif" ].

Definition is_letter (c : ascii) : bool :=
  let n := code c in
  ((65 <=? n) && (n <=? 90) || (97 <=? n) && (n <=? 122))%N.

Fixpoint take_letters (s : string) : string * string :=
  match s with
  | String c r =>
      if is_letter c then
        let (name, rest) := take_letters r in (String c name, rest)
      else (EmptyString, s)
  | EmptyString => (EmptyString, EmptyString)
  end.

Fixpoint lower_string (s : string) : string :=
  match s with
  | EmptyString => EmptyString
  | String c r => String (lower c) (lower_string r)
  end.

(** A marked section that makes the HTML parser give up, at the head of
    [s]: [<![], a keyword of letters that is none of the known ones in any
    case, and a closing bracket. *)
Definition unknown_marked_section (s : string) : bool :=
  match s with
  | String lt (String bang (String bracket rest)) =>
      if ((code lt =? 60) && (code bang =? 33) && (code bracket =? 91))%N
      then
        let (name, after) := take_letters rest in
        negb (is_empty name)
        && match after with
           | String c _ => (code c =? 93)%N
           | EmptyString => false
           end
        && negb (existsb (String.eqb (lower_string name)) known_keywords)
      else false
  | _ => false
  end.

(** Markup that the tree builder is known to reject: text with no [<] and
    no [&] in it, followed by such a marked section.  The parser reads the
    text as data, meets the section and fails the assertion of
    [parse_marked_section]; the tree builder raises it again as
    [ParserRejectedMarkup]. *)
Fixpoint rejected_markup (html : string) : bool :=
  match html with
  | EmptyString => false
  | String c r =>
      if (code c =? 60)%N then unknown_marked_section html
      else if (code c =? 38)%N then false
      else rejected_markup r
  end.

(** A page with a labelled amount, no table, and a marked section with the
    keyword [x]. *)
Definition page_rejected : string := "Lowest Price $120.00<![x]>".

(** * Properties *)

(** ** Comparisons of floats *)


Lemma key_compare_Lt a b : key_compare a b = Lt <-> key_lt a b.
Proof.
  destruct a as [[a1 a2] a3], b as [[b1 b2] b3]. unfold key_compare, key_lt.
  destruct (Z.compare_spec a1 b1), (Z.compare_spec a2 b2),
    (Z.compare_spec a3 b3); split; intros Hc; try discriminate;
    try reflexivity; lia.
Qed.

Lemma key_compare_Gt a b : key_compare a b = Gt <-> key_lt b a.
Proof.
  destruct a as [[a1 a2] a3], b as [[b1 b2] b3]. unfold key_compare, key_lt.
  destruct (Z.compare_spec a1 b1), (Z.compare_spec a2 b2),
    (Z.compare_spec a3 b3); split; intros Hc; try discriminate;
    try reflexivity; lia.
Qed.

Lemma key_compare_Eq a b : key_compare a b = Eq <-> a = b.
Proof.
  destruct a as [[a1 a2] a3], b as [[b1 b2] b3]. unfold key_compare.
  destruct (Z.compare_spec a1 b1), (Z.compare_spec a2 b2),
    (Z.compare_spec a3 b3); split; intros Hc; try discriminate;
    try reflexivity; try (injection Hc; lia); subst; reflexivity.
Qed.

Lemma SFcompare_key x y :
  SFcompare x y =
    match sf_key x, sf_key y with
    | Some a, Some b => Some (key_compare a b)
    | _, _ => None
    end.
Proof.
  destruct x as [[]|[]| |[] mx ex], y as [[]|[]| |[] my ey];
    try reflexivity; simpl.
  rewrite Z.compare_opp, (Z.compare_antisym ex ey).
  destruct (ex ?= ey)%Z; reflexivity.
Qed.

Lemma key_ltb_spec a b : reflect (key_lt a b) (key_ltb a b).
Proof.
  unfold key_ltb. destruct (key_compare a b) eqn:E; constructor.
  - apply key_compare_Eq in E. subst. destruct b as [[b1 b2] b3].
    unfold key_lt. lia.
  - now apply key_compare_Lt.
  - apply key_compare_Gt in E.
    destruct a as [[a1 a2] a3], b as [[b1 b2] b3]. unfold key_lt in *. lia.
Qed.

Lemma ltb_key x y :
  (x <? y) =
    match fkey x, fkey y with
    | Some a, Some b => key_ltb a b
    | _, _ => false
    end.
Proof.
  rewrite ltb_spec. unfold SFltb, fkey, key_ltb. rewrite SFcompare_key.
  destruct (sf_key (Prim2SF x)), (sf_key (Prim2SF y)); reflexivity.
Qed.

Lemma leb_key x y :
  (x <=? y) =
    match fkey x, fkey y with
    | Some a, Some b => negb (key_ltb b a)
    | _, _ => false
    end.
Proof.
  rewrite leb_spec. unfold SFleb, fkey, key_ltb. rewrite SFcompare_key.
  destruct (sf_key (Prim2SF x)) as [a|], (sf_key (Prim2SF y)) as [b|];
    try reflexivity.
  destruct (key_compare a b) eqn:E.
  - apply key_compare_Eq in E. subst.
    destruct (key_compare b b) eqn:E'; try reflexivity.
    apply key_compare_Lt in E'. destruct b as [[b1 b2] b3].
    unfold key_lt in E'. lia.
  - apply key_compare_Lt in E.
    destruct (key_compare b a) eqn:E'; try reflexivity.
    apply key_compare_Lt in E'.
    destruct a as [[a1 a2] a3], b as [[b1 b2] b3]. unfold key_lt in *. lia.
  - apply key_compare_Gt, key_compare_Lt in E. now rewrite E.
Qed.

Lemma eqb_key x y :
  (x =? y) =
    match fkey x, fkey y with
    | Some a, Some b => match key_compare a b with Eq => true | _ => false end
    | _, _ => false
    end.
Proof.
  rewrite eqb_spec. unfold SFeqb, fkey. rewrite SFcompare_key.
  destruct (sf_key (Prim2SF x)), (sf_key (Prim2SF y)); reflexivity.
Qed.

(** Turns comparisons of floats whose keys are known into arithmetic. *)
Ltac key_arith :=
  repeat match goal with
         | H : context [key_ltb ?a ?b] |- _ =>
             destruct (key_ltb_spec a b)
         | |- context [key_ltb ?a ?b] =>
             destruct (key_ltb_spec a b)
         end;
  repeat match goal with
         | a : (Z * Z * Z)%type |- _ => destruct a as [[? ?] ?]
         end;
  unfold key_lt in *; simpl in *;
  try discriminate; try reflexivity; try lia.

Lemma ltb_irrefl x : (x <? x) = false.
Proof. rewrite ltb_key. destruct (fkey x); [key_arith|reflexivity]. Qed.

(** An item that is not below the running minimum is not below a smaller
    one either; it holds with NaN on any side. *)
Lemma ltb_below x m m' :
  (m <? m') = true -> (x <? m') = false -> (x <? m) = false.
Proof.
  rewrite !ltb_key.
  destruct (fkey x), (fkey m), (fkey m'); intros; key_arith.
Qed.

Lemma fle_ordered x y : fle x y -> ordered x /\ ordered y.
Proof.
  unfold fle, ordered. rewrite leb_key.
  destruct (fkey x), (fkey y); try discriminate. now split.
Qed.

Lemma fle_trans x y z : fle x y -> fle y z -> fle x z.
Proof.
  unfold fle. rewrite !leb_key.
  destruct (fkey x), (fkey y), (fkey z); intros; key_arith.
Qed.

Lemma fle_total x y : ordered x -> ordered y -> (y <? x) = false -> fle x y.
Proof.
  unfold fle, ordered. rewrite leb_key, ltb_key.
  destruct (fkey x), (fkey y); intros; try congruence; key_arith.
Qed.

Lemma ltb_fle x y : (x <? y) = true -> fle x y.
Proof.
  unfold fle. rewrite leb_key, ltb_key.
  destruct (fkey x), (fkey y); intros; key_arith.
Qed.

Lemma fle_not_ltb x y : fle x y -> (y <? x) = false.
Proof.
  unfold fle. rewrite leb_key, ltb_key.
  destruct (fkey x), (fkey y); intros; key_arith.
Qed.

Lemma fle_refl x : ordered x -> fle x x.
Proof.
  unfold fle, ordered. rewrite leb_key.
  destruct (fkey x); intros; try congruence; key_arith.
Qed.

Local Open Scope Z_scope.

(** ** Binary digits *)

Lemma digits2_pos_size p : digits2_pos p = Pos.size p.
Proof. induction p; simpl; congruence. Qed.

Lemma pow2_pred d : 0 < d -> 2 ^ d = 2 * 2 ^ (d - 1).
Proof.
  intros H. rewrite <- Z.pow_succ_r by lia. f_equal. lia.
Qed.

Lemma Zdigits2_bounds m :
  0 < m -> 2 ^ (Zdigits2 m - 1) <= m < 2 ^ Zdigits2 m.
Proof.
  destruct m as [|p|p]; try lia. intros _.
  change (Zdigits2 (Zpos p)) with (Zpos (digits2_pos p)).
  rewrite digits2_pos_size.
  assert (E : Zpos (2 ^ Pos.size p) = 2 ^ Zpos (Pos.size p))
    by apply Pos2Z.inj_pow.
  split.
  - pose proof (Pos.size_le p) as H.
    apply Pos2Z.pos_le_pos in H. rewrite E in H.
    rewrite pow2_pred, (Pos2Z.inj_xO p) in H by lia. lia.
  - pose proof (Pos.size_gt p) as H.
    apply Pos2Z.pos_lt_pos in H. rewrite E in H. exact H.
Qed.

Lemma Zdigits2_nonneg m : 0 <= Zdigits2 m.
Proof. destruct m; simpl; lia. Qed.

Lemma Zdigits2_positive m : 0 < m -> 0 < Zdigits2 m.
Proof. destruct m; simpl; lia. Qed.

Lemma Zdigits2_unique m n :
  0 < m -> 2 ^ (n - 1) <= m < 2 ^ n -> Zdigits2 m = n.
Proof.
  intros Hm [Hl Hu].
  pose proof (Zdigits2_bounds m Hm) as [Hl' Hu'].
  pose proof (Zdigits2_positive m Hm) as Hd.
  assert (Hn : 0 < n).
  { destruct (Z.ltb_spec 0 n) as [|Hn]; [assumption|].
    destruct (Z.eq_dec n 0) as [->|Hne]; [simpl in Hu; lia|].
    rewrite (Z.pow_neg_r 2 n) in Hu by lia. lia. }
  assert (n - 1 < Zdigits2 m).
  { apply (Z.pow_lt_mono_r_iff 2); lia. }
  assert (Zdigits2 m - 1 < n).
  { apply (Z.pow_lt_mono_r_iff 2); lia. }
  lia.
Qed.

Lemma Zdigits2_mono a b : 0 <= a <= b -> Zdigits2 a <= Zdigits2 b.
Proof.
  intros [Ha Hab].
  destruct (Z.eq_dec a 0) as [->|Hne]; [apply Zdigits2_nonneg|].
  pose proof (Zdigits2_bounds a ltac:(lia)) as [Hl _].
  pose proof (Zdigits2_bounds b ltac:(lia)) as [_ Hu].
  pose proof (Zdigits2_positive b ltac:(lia)).
  assert (Zdigits2 a - 1 < Zdigits2 b).
  { apply (Z.pow_lt_mono_r_iff 2); lia. }
  lia.
Qed.

Lemma Zdigits2_shift m k :
  0 < m -> 0 <= k -> Zdigits2 (m * 2 ^ k) = Zdigits2 m + k.
Proof.
  intros Hm Hk.
  pose proof (Zdigits2_bounds m Hm) as [Hl Hu].
  pose proof (Zdigits2_positive m Hm) as Hd.
  assert (Hp : 0 < 2 ^ k) by (apply Z.pow_pos_nonneg; lia).
  apply Zdigits2_unique; [nia|].
  replace (Zdigits2 m + k - 1) with (Zdigits2 m - 1 + k) by lia.
  rewrite !Z.pow_add_r by lia. nia.
Qed.

(** The leading [prec] digits of a number are at least [2^(prec-1)]. *)
Lemma leading_digits m prec :
  0 < m -> 0 < prec -> 0 <= Zdigits2 m - prec ->
  2 ^ (prec - 1) <= m / 2 ^ (Zdigits2 m - prec).
Proof.
  intros Hm Hp Hd.
  pose proof (Zdigits2_bounds m Hm) as [Hl _].
  apply Z.div_le_lower_bound; [apply Z.pow_pos_nonneg; lia|].
  rewrite <- Z.pow_add_r by lia.
  replace (Zdigits2 m - prec + (prec - 1)) with (Zdigits2 m - 1) by lia.
  exact Hl.
Qed.

(** ** The sign of a rounding *)

Section RoundingSign.

Variables prec emax : Z.

Lemma shr_1_nonneg mrs : 0 <= shr_m mrs -> 0 <= shr_m (shr_1 mrs).
Proof.
  destruct mrs as [m r s]. simpl.
  destruct m as [|[p|p|]|[p|p|]]; simpl; lia.
Qed.

Lemma iter_shr_1_nonneg p mrs :
  0 <= shr_m mrs -> 0 <= shr_m (iter_pos shr_1 p mrs).
Proof.
  revert mrs. induction p as [p IH|p IH|]; intros mrs H; simpl.
  - apply IH, IH, shr_1_nonneg, H.
  - apply IH, IH, H.
  - apply shr_1_nonneg, H.
Qed.

Lemma shr_fexp_nonneg m e l :
  0 <= m -> 0 <= shr_m (fst (shr_fexp prec emax m e l)).
Proof.
  intros H. unfold shr_fexp, shr.
  assert (H0 : 0 <= shr_m (shr_record_of_loc m l))
    by (destruct l as [|[]]; exact H).
  destruct (SpecFloat.fexp prec emax (Zdigits2 m + e) - e); simpl;
    try exact H0.
  apply iter_shr_1_nonneg, H0.
Qed.

Lemma round_nearest_even_nonneg m l :
  0 <= m -> 0 <= round_nearest_even m l.
Proof.
  intros H. destruct l as [|[]]; simpl; try lia.
  destruct (Z.even m); lia.
Qed.

Lemma binary_round_aux_has_sign sx m e l :
  0 <= m -> has_sign sx (binary_round_aux prec emax sx m e l) = true.
Proof.
  intros H. unfold binary_round_aux.
  pose proof (shr_fexp_nonneg m e l H) as H1.
  destruct (shr_fexp prec emax m e l) as [mrs' e']. simpl in H1.
  pose proof (shr_fexp_nonneg _ e' loc_Exact
                (round_nearest_even_nonneg _ (loc_of_shr_record mrs') H1))
    as H2.
  destruct (shr_fexp prec emax _ e' loc_Exact) as [mrs'' e'']. simpl in H2.
  destruct (shr_m mrs''); [| |lia].
  - apply eqb_reflx.
  - destruct (e'' <=? emax - prec); apply eqb_reflx.
Qed.

Lemma binary_round_has_sign sx m e :
  has_sign sx (binary_round prec emax sx m e) = true.
Proof.
  unfold binary_round. destruct (shl_align _ _ _) as [mz ez].
  apply binary_round_aux_has_sign. lia.
Qed.

Lemma binary_normalize_nonneg z e :
  0 <= z -> has_sign false (binary_normalize prec emax z e false) = true.
Proof.
  intros H. destruct z; simpl; [reflexivity| |lia].
  apply binary_round_has_sign.
Qed.

Lemma SFldexp_has_sign sx s e :
  has_sign sx s = true -> has_sign sx (SFldexp prec emax s e) = true.
Proof.
  destruct s as [| | |b m ex]; simpl; try easy.
  intros H. apply eqb_prop in H. subst b. apply binary_round_has_sign.
Qed.

Lemma SFdiv_nonneg mx ex my ey :
  has_sign false (SFdiv prec emax (S754_finite false mx ex)
                    (S754_finite false my ey)) = true.
Proof.
  unfold SFdiv, SFdiv_core_binary.
  set (m' := match ex - ey - _ with
             | Zpos _ => Z.shiftl (Zpos mx) _
             | Z0 => Zpos mx
             | Zneg _ => 0
             end).
  assert (Hm : 0 <= m').
  { unfold m'. destruct (ex - ey - _); try lia.
    apply Z.shiftl_nonneg. lia. }
  pose proof (Z.div_pos m' (Zpos my) Hm eq_refl) as Hq.
  unfold Z.div in Hq. destruct (Z.div_eucl m' (Zpos my)) as [q r].
  simpl in Hq. apply binary_round_aux_has_sign, Hq.
Qed.

End RoundingSign.

Lemma SF2Prim_nonneg s :
  has_sign false s = true -> has_sign false (Prim2SF (SF2Prim s)) = true.
Proof.
  destruct s as [[]|[]| |[] m e]; simpl; try easy; intros _.
  unfold Z.ldexp. rewrite ldshiftexp_spec, of_uint63_spec.
  apply SFldexp_has_sign, binary_normalize_nonneg.
  apply Uint63.to_Z_bounded.
Qed.

(** ** Rounding, step by step *)

Lemma shr_1_div mrs : 0 <= shr_m mrs -> shr_m (shr_1 mrs) = shr_m mrs / 2.
Proof.
  destruct mrs as [m r s]. simpl. intros Hm.
  destruct m as [|[p|p|]|p]; simpl.
  - reflexivity.
  - rewrite (Pos2Z.inj_xI p). apply (Z.div_unique _ _ _ 1); lia.
  - rewrite (Pos2Z.inj_xO p). apply (Z.div_unique _ _ _ 0); lia.
  - reflexivity.
  - lia.
Qed.

Lemma iter_shr_1_div p mrs :
  0 <= shr_m mrs ->
  0 <= shr_m (iter_pos shr_1 p mrs)
  /\ shr_m (iter_pos shr_1 p mrs) = shr_m mrs / 2 ^ Zpos p.
Proof.
  revert mrs. induction p as [p IH|p IH|]; intros mrs Hm; simpl iter_pos.
  - assert (H1 : 0 <= shr_m (shr_1 mrs)).
    { rewrite shr_1_div by assumption. apply Z.div_pos; lia. }
    destruct (IH _ H1) as [H2 E2]. destruct (IH _ H2) as [H3 E3].
    split; [assumption|].
    rewrite E3, E2, shr_1_div by assumption.
    rewrite !Z.div_div by (try apply Z.pow_pos_nonneg; lia).
    f_equal. rewrite (Pos2Z.inj_xI p).
    replace (2 * Zpos p + 1) with (1 + Zpos p + Zpos p) by lia.
    rewrite !Z.pow_add_r by lia. change (2 ^ 1) with 2. lia.
  - destruct (IH _ Hm) as [H2 E2]. destruct (IH _ H2) as [H3 E3].
    split; [assumption|].
    rewrite E3, E2.
    rewrite !Z.div_div by (try apply Z.pow_pos_nonneg; lia).
    f_equal. rewrite (Pos2Z.inj_xO p).
    replace (2 * Zpos p) with (Zpos p + Zpos p) by lia.
    rewrite !Z.pow_add_r by lia. lia.
  - rewrite shr_1_div by assumption. split; [apply Z.div_pos; lia|].
    reflexivity.
Qed.

Lemma iter_xO_mul m d : Zpos (Pos.iter xO m d) = Zpos m * 2 ^ Zpos d.
Proof.
  induction d as [|d IH] using Pos.peano_ind.
  - simpl. rewrite (Pos2Z.inj_xO m). lia.
  - rewrite Pos.iter_succ, (Pos2Z.inj_xO (Pos.iter xO m d)), IH.
    rewrite Pos2Z.inj_succ, Z.pow_succ_r by lia. lia.
Qed.

Section Rounding.

Variables prec emax : Z.
Hypothesis prec_positive : 0 < prec.

Abbreviation fexp := (SpecFloat.fexp prec emax).
Abbreviation emin := (SpecFloat.emin prec emax).

Lemma fexp_mono a b : a <= b -> fexp a <= fexp b.
Proof. unfold SpecFloat.fexp. lia. Qed.

Lemma fexp_above_emin a b : b < fexp a -> emin <= b -> fexp a = a - prec.
Proof. unfold SpecFloat.fexp. lia. Qed.

Lemma fexp_ge_emin a : emin <= fexp a.
Proof. unfold SpecFloat.fexp. lia. Qed.

(** The first half of a rounding: the mantissa is cut down to the
    exponent the format gives to its magnitude. *)
Lemma shr_fexp_exact m e :
  0 <= m ->
  let E := fexp (Zdigits2 m + e) in
  (E <= e ->
   shr_fexp prec emax m e loc_Exact = (Build_shr_record m false false, e))
  /\ (e < E ->
      snd (shr_fexp prec emax m e loc_Exact) = E
      /\ shr_m (fst (shr_fexp prec emax m e loc_Exact)) = m / 2 ^ (E - e)).
Proof.
  intros Hm E. unfold shr_fexp, shr. fold E. split; intros HE.
  - destruct (E - e) eqn:D; try reflexivity; lia.
  - destruct (E - e) eqn:D; try lia. simpl.
    split; [lia|].
    destruct (iter_shr_1_div p (Build_shr_record m false false) Hm)
      as [_ ->]. reflexivity.
Qed.

Lemma round_nearest_even_bounds m l :
  m <= round_nearest_even m l <= m + 1.
Proof.
  destruct l as [|[]]; simpl; try lia. destruct (Z.even m); lia.
Qed.

Lemma binary_round_aux_cases sx m e :
  0 < m ->
  let E := fexp (Zdigits2 m + e) in
  e <= E ->
  exists m2 e3 m3,
    m / 2 ^ (E - e) <= m2 <= m / 2 ^ (E - e) + 1
    /\ (e = E -> m2 = m)
    /\ second_cut prec emax E m2 e3 m3
    /\ binary_round_aux prec emax sx m e loc_Exact = round_result prec emax sx m3 e3.
Proof.
  intros Hm E HE. unfold binary_round_aux.
  destruct (shr_fexp_exact m e ltac:(lia)) as [Hno Hcut]. fold E in Hno, Hcut.
  assert (H1 : exists mrs',
             shr_fexp prec emax m e loc_Exact = (mrs', E)
             /\ shr_m mrs' = m / 2 ^ (E - e)
             /\ (e = E -> mrs' = Build_shr_record m false false)).
  { destruct (Z.eq_dec e E) as [Heq|Hne].
    - exists (Build_shr_record m false false). rewrite Hno by lia.
      rewrite <- Heq, Z.sub_diag. simpl. rewrite Z.div_1_r. auto.
    - destruct Hcut as [Hs Hv]; [lia|].
      destruct (shr_fexp prec emax m e loc_Exact) as [mrs' e'].
      simpl in Hs, Hv. subst e'. exists mrs'. repeat split; auto. lia. }
  destruct H1 as [mrs' [-> [Hv Hex]]].
  set (m2 := round_nearest_even (shr_m mrs') (loc_of_shr_record mrs')).
  assert (Hb : m / 2 ^ (E - e) <= m2 <= m / 2 ^ (E - e) + 1).
  { rewrite <- Hv. apply round_nearest_even_bounds. }
  assert (H0 : 0 <= m / 2 ^ (E - e)).
  { apply Z.div_pos; [lia|]. apply Z.pow_pos_nonneg; lia. }
  destruct (shr_fexp_exact m2 E ltac:(lia)) as [Hno2 Hcut2].
  destruct (Z_le_gt_dec (fexp (Zdigits2 m2 + E)) E) as [Hle|Hgt].
  - exists m2, E, m2. rewrite Hno2 by assumption. simpl.
    refine (conj Hb (conj _ (conj _ eq_refl))).
    + intros Heq. unfold m2. rewrite (Hex Heq). reflexivity.
    + left. auto.
  - destruct Hcut2 as [Hs2 Hv2]; [lia|].
    destruct (shr_fexp prec emax m2 E loc_Exact) as [mrs'' e''].
    simpl in Hs2, Hv2. subst e''.
    exists m2, (fexp (Zdigits2 m2 + E)),
      (m2 / 2 ^ (fexp (Zdigits2 m2 + E) - E)).
    rewrite Hv2.
    refine (conj Hb (conj _ (conj _ eq_refl))).
    + intros Heq. unfold m2. rewrite (Hex Heq). reflexivity.
    + right. split; [lia|]. split; reflexivity.
Qed.

Lemma shl_align_cases z ez E :
  (ez <= E -> shl_align z ez E = (z, ez))
  /\ (E < ez ->
      exists z', shl_align z ez E = (z', E)
                 /\ Zpos z' = Zpos z * 2 ^ (ez - E)).
Proof.
  unfold shl_align. destruct (E - ez) as [|d|d] eqn:D; split; intros H;
    try reflexivity; try lia.
  exists (Pos.iter xO z d). split; [reflexivity|].
  rewrite iter_xO_mul. f_equal. f_equal. lia.
Qed.

Lemma binary_round_cases sx z ez :
  let E := fexp (Zpos (digits2_pos z) + ez) in
  exists m2 e3 m3,
    (ez <= E ->
     Zpos z / 2 ^ (E - ez) <= m2 <= Zpos z / 2 ^ (E - ez) + 1)
    /\ (E <= ez -> m2 = Zpos z * 2 ^ (ez - E))
    /\ second_cut prec emax E m2 e3 m3
    /\ binary_round prec emax sx z ez = round_result prec emax sx m3 e3.
Proof.
  intros E. unfold binary_round. fold E.
  destruct (shl_align_cases z ez E) as [Hsame Hshift].
  destruct (Z_le_gt_dec ez E) as [Hle|Hgt].
  - rewrite Hsame by assumption.
    pose proof (binary_round_aux_cases sx (Zpos z) ez ltac:(lia)) as H.
    cbv zeta in H. change (fexp (Zdigits2 (Zpos z) + ez)) with E in H.
    destruct H as [m2 [e3 [m3 [Hb [Hx [Hc Hr]]]]]]; [lia|].
    exists m2, e3, m3.
    refine (conj (fun _ => Hb) (conj _ (conj Hc Hr))).
    intros HE. rewrite Hx by lia.
    replace (ez - E) with 0 by lia. simpl. lia.
  - destruct Hshift as [z' [-> Hz]]; [lia|].
    assert (HE : fexp (Zdigits2 (Zpos z') + E) = E).
    { rewrite Hz, Zdigits2_shift by lia. unfold E. f_equal.
      simpl Zdigits2. lia. }
    pose proof (binary_round_aux_cases sx (Zpos z') E ltac:(lia)) as H.
    cbv zeta in H. rewrite HE in H.
    destruct H as [m2 [e3 [m3 [Hb [Hx [Hc Hr]]]]]]; [lia|].
    exists m2, e3, m3.
    refine (conj _ (conj _ (conj Hc Hr))); [lia|].
    intros _. rewrite Hx by reflexivity. exact Hz.
Qed.

Lemma SFltb_pos_false mx ex p e :
  e < ex \/ e = ex /\ Zpos p <= Zpos mx ->
  SFltb (S754_finite false mx ex) (S754_finite false p e) = false.
Proof.
  intros H. unfold SFltb, SFcompare.
  destruct (Z.compare_spec ex e); try reflexivity; try lia.
  change (Pos.compare_cont Eq mx p) with (Pos.compare mx p).
  destruct (Pos.compare_spec mx p); try reflexivity; lia.
Qed.

Lemma SFltb_neg_false mx ex p e :
  ex < e \/ e = ex /\ Zpos mx <= Zpos p ->
  SFltb (S754_finite true mx ex) (S754_finite true p e) = false.
Proof.
  intros H. unfold SFltb, SFcompare.
  destruct (Z.compare_spec ex e); try reflexivity; try lia.
  change (Pos.compare_cont Eq mx p) with (Pos.compare mx p).
  destruct (Pos.compare_spec mx p); try reflexivity; lia.
Qed.

Lemma bounded_canonical mx ex :
  bounded prec emax mx ex = true ->
  fexp (Zdigits2 (Zpos mx) + ex) = ex /\ ex <= emax - prec.
Proof.
  unfold bounded, canonical_mantissa. intros H.
  apply andb_prop in H. destruct H as [H1 H2].
  apply Z.eqb_eq in H1. apply Z.leb_le in H2. split; assumption.
Qed.

(** Rounding a positive number below a float of the format gives a float
    that is not above it. *)
Lemma round_below mx ex z ez :
  bounded prec emax mx ex = true ->
  ez <= ex ->
  Zpos z < Zpos mx * 2 ^ (ex - ez) ->
  SFltb (S754_finite false mx ex) (binary_round prec emax false z ez)
    = false.
Proof.
  intros Hb Hez Hlt. destruct (bounded_canonical mx ex Hb) as [Hcan Hmax].
  destruct (binary_round_cases false z ez)
    as [m2 [e3 [m3 [Hdiv [Hmul [Hc ->]]]]]].
  set (E := fexp (Zpos (digits2_pos z) + ez)) in *.
  assert (HD : Zdigits2 (Zpos z) + ez <= Zdigits2 (Zpos mx) + ex).
  { pose proof (Zdigits2_mono (Zpos z) (Zpos mx * 2 ^ (ex - ez))
                  ltac:(lia)) as H.
    rewrite Zdigits2_shift in H by lia. lia. }
  assert (HE : E <= ex).
  { rewrite <- Hcan. apply fexp_mono. exact HD. }
  set (Xs := Zpos mx * 2 ^ (ex - E)).
  assert (Hm2 : 0 <= m2 <= Xs).
  { destruct (Z_le_gt_dec ez E) as [Hle|Hgt].
    - specialize (Hdiv Hle).
      assert (Hp : 0 < 2 ^ (E - ez)) by (apply Z.pow_pos_nonneg; lia).
      assert (H0 : 0 <= Zpos z / 2 ^ (E - ez)) by (apply Z.div_pos; lia).
      assert (H1 : Zpos z / 2 ^ (E - ez) < Xs).
      { apply Z.div_lt_upper_bound; [exact Hp|].
        unfold Xs. replace (ex - ez) with ((E - ez) + (ex - E)) in Hlt by lia.
        rewrite Z.pow_add_r in Hlt by lia. lia. }
      lia.
    - rewrite Hmul by lia.
      assert (Hp : 0 < 2 ^ (ez - E)) by (apply Z.pow_pos_nonneg; lia).
      unfold Xs. replace (ex - E) with ((ex - ez) + (ez - E)) by lia.
      rewrite Z.pow_add_r by lia. nia. }
  assert (HXs : Zdigits2 Xs + E = Zdigits2 (Zpos mx) + ex).
  { unfold Xs. rewrite Zdigits2_shift by lia. lia. }
  destruct Hc as [[Hno [-> ->]]|[Hcut [He3 ->]]].
  - unfold round_result. destruct m2 as [|p|p]; [reflexivity| |lia].
    replace (E <=? emax - prec) with true by (symmetry; apply Z.leb_le; lia).
    apply SFltb_pos_false.
    destruct (Z.eq_dec E ex) as [Heq|Hne]; [right|left; lia].
    split; [assumption|]. unfold Xs in Hm2. rewrite Heq, Z.sub_diag in Hm2.
    simpl in Hm2. lia.
  - assert (He : e3 <= ex).
    { rewrite He3, <- Hcan, <- HXs. apply fexp_mono.
      pose proof (Zdigits2_mono m2 Xs Hm2). lia. }
    assert (Hp : 0 < 2 ^ (e3 - E)) by (apply Z.pow_pos_nonneg; lia).
    assert (H3 : 0 <= m2 / 2 ^ (e3 - E)) by (apply Z.div_pos; lia).
    unfold round_result.
    destruct (m2 / 2 ^ (e3 - E)) as [|p|p] eqn:Hq; [reflexivity| |lia].
    replace (e3 <=? emax - prec) with true
      by (symmetry; apply Z.leb_le; lia).
    apply SFltb_pos_false.
    destruct (Z.eq_dec e3 ex) as [Heq|Hne]; [right|left; lia].
    split; [assumption|]. rewrite <- Hq, Heq.
    replace (Zpos mx) with (Xs / 2 ^ (ex - E)).
    + apply Z.div_le_mono; [rewrite <- Heq; exact Hp|lia].
    + unfold Xs. apply Z.div_mul. rewrite <- Heq. lia.
Qed.

(** Rounding a number at or above a float of the format, with the sign of
    a negative number, gives a float that is not above the negative
    one. *)
Lemma round_above mx ex z ez :
  bounded prec emax mx ex = true ->
  ez <= ex ->
  Zpos mx * 2 ^ (ex - ez) <= Zpos z ->
  SFltb (S754_finite true mx ex) (binary_round prec emax true z ez)
    = false.
Proof.
  intros Hb Hez Hge. destruct (bounded_canonical mx ex Hb) as [Hcan Hmax].
  destruct (binary_round_cases true z ez)
    as [m2 [e3 [m3 [Hdiv [_ [Hc ->]]]]]].
  set (E := fexp (Zpos (digits2_pos z) + ez)) in *.
  assert (HD : Zdigits2 (Zpos mx) + ex <= Zdigits2 (Zpos z) + ez).
  { pose proof (Zdigits2_mono (Zpos mx * 2 ^ (ex - ez)) (Zpos z)) as H.
    rewrite Zdigits2_shift in H by lia.
    assert (0 < 2 ^ (ex - ez)) by (apply Z.pow_pos_nonneg; lia).
    assert (0 <= Zpos mx * 2 ^ (ex - ez) <= Zpos z) by nia. lia. }
  assert (HE : ex <= E).
  { rewrite <- Hcan. apply fexp_mono. exact HD. }
  assert (Hemin : emin <= ex) by (rewrite <- Hcan; apply fexp_ge_emin).
  specialize (Hdiv ltac:(lia)).
  assert (Hp : 0 < 2 ^ (E - ez)) by (apply Z.pow_pos_nonneg; lia).
  (* the mantissa after the first cut is positive, and at least [mx] when
     the exponent is the one of the float *)
  assert (Hm2 : 0 < m2 /\ (E = ex -> Zpos mx <= m2)).
  { destruct (Z.eq_dec E ex) as [Heq|Hne].
    - assert (Zpos mx <= Zpos z / 2 ^ (E - ez)).
      { rewrite Heq. replace (Zpos mx) with
          (Zpos mx * 2 ^ (ex - ez) / 2 ^ (ex - ez)).
        - apply Z.div_le_mono; [rewrite <- Heq; exact Hp|exact Hge].
        - apply Z.div_mul. rewrite <- Heq. lia. }
      split; [lia|]. intros _. lia.
    - split; [|intros HH; lia].
      assert (HEv : E = Zdigits2 (Zpos z) + ez - prec).
      { apply (fexp_above_emin _ ex); [fold E; lia|exact Hemin]. }
      pose proof (leading_digits (Zpos z) prec ltac:(lia) prec_positive
                    ltac:(lia)) as Hl.
      replace (Zdigits2 (Zpos z) - prec) with (E - ez) in Hl by lia.
      assert (0 < 2 ^ (prec - 1)) by (apply Z.pow_pos_nonneg; lia).
      lia. }
  destruct Hm2 as [Hpos Hmx].
  assert (Hfinal : forall p e, ex < e \/ e = ex /\ Zpos mx <= Zpos p ->
            SFltb (S754_finite true mx ex)
              (if e <=? emax - prec then S754_finite true p e
               else S754_infinity true) = false).
  { intros p e H. destruct (e <=? emax - prec); [|reflexivity].
    apply SFltb_neg_false, H. }
  destruct Hc as [[Hno [-> ->]]|[Hcut [He3 ->]]].
  - unfold round_result. destruct m2 as [|p|p]; try lia.
    apply Hfinal. destruct (Z.eq_dec E ex) as [Heq|Hne]; [right|left; lia].
    split; [assumption|]. apply Hmx, Heq.
  - assert (HE2 : e3 = Zdigits2 m2 + E - prec).
    { rewrite He3. apply (fexp_above_emin _ E); [exact Hcut|lia]. }
    pose proof (leading_digits m2 prec Hpos prec_positive ltac:(lia)) as Hl.
    replace (Zdigits2 m2 - prec) with (e3 - E) in Hl by lia.
    assert (0 < 2 ^ (prec - 1)) by (apply Z.pow_pos_nonneg; lia).
    unfold round_result.
    destruct (m2 / 2 ^ (e3 - E)) as [|p|p]; try lia.
    apply Hfinal. left. lia.
Qed.

(** Taking a positive float away from a float of the format never gives
    a float above it. *)
Lemma SFsub_not_above s mc ec :
  SpecFloat.valid_binary prec emax s = true ->
  SFltb s (SFsub prec emax s (S754_finite false mc ec)) = false.
Proof.
  intros Hv. destruct s as [sx|sx| |sx mx ex].
  - destruct sx; reflexivity.
  - destruct sx; reflexivity.
  - reflexivity.
  - simpl in Hv. unfold SFsub.
    set (ez := Z.min ex ec).
    destruct (shl_align_cases mx ex ez) as [Hx1 Hx2].
    destruct (shl_align_cases mc ec ez) as [Hc1 Hc2].
    assert (HX : Zpos (fst (shl_align mx ex ez)) = Zpos mx * 2 ^ (ex - ez)).
    { destruct (Z_le_gt_dec ex ez).
      - rewrite Hx1 by assumption. simpl.
        replace (ex - ez) with 0 by lia. simpl. lia.
      - destruct Hx2 as [z' [-> Hz]]; [lia|]. exact Hz. }
    rewrite HX.
    set (C := Zpos (fst (shl_align mc ec ez))).
    assert (HC : 0 < C) by (unfold C; lia).
    assert (Hez : ez <= ex) by (unfold ez; lia).
    assert (HXp : 0 < Zpos mx * 2 ^ (ex - ez)).
    { assert (0 < 2 ^ (ex - ez)) by (apply Z.pow_pos_nonneg; lia). nia. }
    destruct sx; unfold cond_Zopp.
    + (* below zero: the magnitude grows *)
      remember (- (Zpos mx * 2 ^ (ex - ez)) - C) as zz eqn:Hz.
      destruct zz as [|p|p]; try lia.
      unfold binary_normalize. apply round_above; try assumption. lia.
    + remember (Zpos mx * 2 ^ (ex - ez) - C) as zz eqn:Hz.
      destruct zz as [|p|p]; unfold binary_normalize.
      * reflexivity.
      * apply round_below; try assumption. lia.
      * pose proof (binary_round_has_sign prec emax true p ez) as Hs.
        destruct (binary_round prec emax true p ez) as [[]|[]| |[] m e];
          try discriminate; reflexivity.
Qed.

End Rounding.

Local Close Scope Z_scope.

Lemma Prim2SF_tolerance :
  Prim2SF tolerance = S754_finite false 4835703278458517 (-82).
Proof. vm_compute. reflexivity. Qed.

(** Taking the tolerance away from a float never gives a float above it,
    whatever the rounding. *)
Lemma ltb_sub_tolerance x : (x <? x - tolerance)%float = false.
Proof.
  rewrite FloatAxioms.ltb_spec, FloatAxioms.sub_spec, Prim2SF_tolerance.
  apply SFsub_not_above; [reflexivity|apply Prim2SF_valid].
Qed.

(** ** The messages of a cycle, rule by rule *)

Lemma alerts_of_eq target notify st summary :
  alerts_of target notify st summary =
    target_alerts target summary
      ++ fst (new_low_alerts notify (all_time_low st) summary)
      ++ listing_alerts (last_state st) summary
      ++ price_alerts (last_state st) summary
      ++ market_alerts (movement_detected (last_state st) summary) summary.
Proof.
  unfold alerts_of, detect.
  destruct (new_low_alerts notify (all_time_low st) summary); reflexivity.
Qed.

Lemma filter_app5 {A} (p : A -> bool) (l1 l2 l3 l4 l5 : list A) :
  filter p (l1 ++ l2 ++ l3 ++ l4 ++ l5) =
    filter p l1 ++ filter p l2 ++ filter p l3 ++ filter p l4 ++ filter p l5.
Proof. now rewrite !filter_app. Qed.

(** Splits every [match] and [if] of the goal, then computes. *)
Ltac split_cases :=
  repeat match goal with
         | |- context [match ?x with _ => _ end] => destruct x eqn:?
         end;
  simpl; try reflexivity; try discriminate.

(** Membership in a list written out, element by element. *)
Ltac in_cases :=
  let a := fresh "a" in
  let Ha := fresh "Ha" in
  intros a Ha; simpl in Ha;
  repeat (destruct Ha as [<-|Ha]; [reflexivity|]);
  contradiction.

Lemma target_alerts_kind target summary p :
  (forall lp t, p (TargetHit lp t) = false) ->
  filter p (target_alerts target summary) = [].
Proof.
  intros Hp. unfold target_alerts. split_cases. now rewrite Hp.
Qed.

Lemma new_low_alerts_kind notify low summary p :
  (forall e old, p (NewLow e old) = false) ->
  filter p (fst (new_low_alerts notify low summary)) = [].
Proof.
  intros Hp. unfold new_low_alerts. split_cases; now rewrite Hp.
Qed.

Lemma listing_alerts_kind last summary p :
  (forall d n, p (Posted d n) = false) ->
  (forall d n, p (Sold d n) = false) ->
  filter p (listing_alerts last summary) = [].
Proof.
  intros Hp Hs. unfold listing_alerts. split_cases;
    now rewrite ?Hp, ?Hs.
Qed.

Lemma price_alerts_kind last summary p :
  (forall u a b, p (PriceChange u a b) = false) ->
  filter p (price_alerts last summary) = [].
Proof.
  intros Hp. unfold price_alerts. split_cases; now rewrite Hp.
Qed.

Lemma market_alerts_kind moved summary p :
  (forall l m, p (MarketUpdate l m) = false) ->
  filter p (market_alerts moved summary) = [].
Proof.
  intros Hp. unfold market_alerts.
  destruct moved; [|reflexivity].
  destruct (all_prices summary); [reflexivity|].
  destruct (lowest 10 _); [reflexivity|].
  simpl. now rewrite Hp.
Qed.

Lemma filter_all {A} (p : A -> bool) (l : list A) :
  (forall a, In a l -> p a = true) -> filter p l = l.
Proof.
  induction l as [|a l IH]; simpl; intros H; [reflexivity|].
  rewrite (H a (or_introl eq_refl)). f_equal. apply IH. auto.
Qed.

(** The five rules, read off the messages of a cycle. *)
Lemma filter_target_hit target notify st summary :
  filter is_target_hit (alerts_of target notify st summary) =
    target_alerts target summary.
Proof.
  rewrite alerts_of_eq, filter_app5.
  rewrite new_low_alerts_kind, listing_alerts_kind, price_alerts_kind,
    market_alerts_kind by reflexivity.
  rewrite !app_nil_r. apply filter_all.
  unfold target_alerts. split_cases; in_cases.
Qed.

Lemma filter_new_low target notify st summary :
  filter is_new_low (alerts_of target notify st summary) =
    fst (new_low_alerts notify (all_time_low st) summary).
Proof.
  rewrite alerts_of_eq, filter_app5.
  rewrite target_alerts_kind, listing_alerts_kind, price_alerts_kind,
    market_alerts_kind by reflexivity.
  rewrite !app_nil_r. simpl. apply filter_all.
  unfold new_low_alerts. split_cases; in_cases.
Qed.

Lemma filter_listing_change target notify st summary :
  filter is_listing_change (alerts_of target notify st summary) =
    listing_alerts (last_state st) summary.
Proof.
  rewrite alerts_of_eq, filter_app5.
  rewrite target_alerts_kind, new_low_alerts_kind, price_alerts_kind,
    market_alerts_kind by reflexivity.
  rewrite !app_nil_r. simpl. apply filter_all.
  unfold listing_alerts. split_cases; in_cases.
Qed.

Lemma filter_price_change target notify st summary :
  filter is_price_change (alerts_of target notify st summary) =
    price_alerts (last_state st) summary.
Proof.
  rewrite alerts_of_eq, filter_app5.
  rewrite target_alerts_kind, new_low_alerts_kind, listing_alerts_kind,
    market_alerts_kind by reflexivity.
  rewrite !app_nil_r. simpl. apply filter_all.
  unfold price_alerts. split_cases; in_cases.
Qed.

Lemma filter_market_update target notify st summary :
  filter is_market_update (alerts_of target notify st summary) =
    market_alerts (movement_detected (last_state st) summary) summary.
Proof.
  rewrite alerts_of_eq, filter_app5.
  rewrite target_alerts_kind, new_low_alerts_kind, listing_alerts_kind,
    price_alerts_kind by reflexivity.
  simpl. apply filter_all.
  unfold market_alerts.
  destruct (movement_detected _ _); [|in_cases].
  destruct (all_prices summary); [in_cases|].
  destruct (lowest 10 _); in_cases.
Qed.

Lemma existsb_filter {A} (p : A -> bool) (l : list A) :
  existsb p l = match filter p l with [] => false | _ => true end.
Proof.
  induction l as [|a l IH]; simpl; [reflexivity|].
  destruct (p a); simpl; [reflexivity|exact IH].
Qed.

Lemma lowest_firstn k l : lowest k l = firstn k l.
Proof.
  unfold lowest. destruct (k <=? List.length l)%nat eqn:E; [reflexivity|].
  apply Nat.leb_gt in E. symmetry. apply firstn_all2. lia.
Qed.

(** ** Target hit *)

(** C6: a target-hit message is emitted exactly when the target is positive
    and the current lowest price is present and at most the target; it is
    then the only one and carries that price and the target.  With the
    target at zero no target-hit message is emitted, whatever the price. *)
Theorem target_hit_iff target notify st summary :
  (existsb is_target_hit (alerts_of target notify st summary) = true <->
     (0 <? target) = true /\
     exists lp, lowest_price summary = Some lp /\ (lp <=? target) = true)
  /\ (forall lp, lowest_price summary = Some lp ->
      (0 <? target) = true -> (lp <=? target) = true ->
      filter is_target_hit (alerts_of target notify st summary)
        = [TargetHit lp target])
  /\ existsb is_target_hit (alerts_of 0 notify st summary) = false.
Proof.
  rewrite !existsb_filter, !filter_target_hit. unfold target_alerts.
  split; [|split].
  - destruct (lowest_price summary) as [lp|].
    + split.
      * intros H.
        destruct (0 <? target) eqn:Ht, (lp <=? target) eqn:Hl;
          simpl in H; try discriminate.
        split; [reflexivity|]. exists lp. now split.
      * intros [Ht [lp' [Hlp Hl]]]. injection Hlp as <-.
        now rewrite Ht, Hl.
    + split; [discriminate|]. intros [_ [lp [H _]]]. discriminate.
  - intros lp -> -> ->. reflexivity.
  - destruct (lowest_price summary); reflexivity.
Qed.

(** ** Listing count change *)

(** C7: when the prior and the current listing counts are both present
    and differ, the cycle emits exactly one listing-change message: posted,
    with the increase, when the count went up, sold, with the decrease, when
    it went down, each with the new total.  Equal counts, a missing count
    or no prior observation emit none.  From 5 listings to 3 the message is
    "2 sold, total 3". *)
Theorem listing_change_once target notify st summary :
  filter is_listing_change (alerts_of target notify st summary) =
    match prior_count st, num_listings summary with
    | Some last_num, Some n =>
        if (n =? last_num)%Z then []
        else if (last_num <? n)%Z then [Posted (n - last_num) n]
        else [Sold (last_num - n) n]
    | _, _ => []
    end
  /\ (prior_count st = Some 5%Z -> num_listings summary = Some 3%Z ->
      filter is_listing_change (alerts_of target notify st summary)
        = [Sold 2 3]).
Proof.
  assert (E : filter is_listing_change (alerts_of target notify st summary) =
    match prior_count st, num_listings summary with
    | Some last_num, Some n =>
        if (n =? last_num)%Z then []
        else if (last_num <? n)%Z then [Posted (n - last_num) n]
        else [Sold (last_num - n) n]
    | _, _ => []
    end).
  { rewrite filter_listing_change. unfold listing_alerts, prior_count.
    destruct (last_state st) as [ls|]; [|reflexivity].
    destruct (num_listings summary) as [n|];
      destruct (last_num_listings ls) as [l|]; try reflexivity.
    destruct (Z.eqb_spec n l) as [->|Hne]; simpl; [reflexivity|].
    destruct (Z.ltb_spec l n); destruct (Z.gtb_spec (n - l) 0); try lia.
    - reflexivity.
    - do 2 f_equal. lia. }
  split; [exact E|].
  intros H5 H3. rewrite E, H5, H3. reflexivity.
Qed.

(** ** Price change *)

(** Refutes C1 as stated: with a prior lowest price of 100 and a current one
    of 120 the difference exceeds the threshold, yet a cycle whose listing
    count is missing emits no price-change message. *)
Lemma price_change_silent_without_count :
  ~ (forall target notify st summary last_lowest lp,
        prior_lowest st = Some last_lowest ->
        lowest_price summary = Some lp ->
        (threshold <? abs (lp - last_lowest)) = true ->
        List.length
          (filter is_price_change (alerts_of target notify st summary))
        = 1%nat).
Proof.
  intros H.
  specialize (H 0 true
    {| all_time_low := None;
       last_state := Some {| last_lowest_price := Some 100;
                             last_num_listings := Some 5%Z;
                             last_all_prices := [] |} |}
    {| lowest_price := Some 120; median_sale := None;
       computed_min_price := None; num_listings := None;
       all_prices := [] |}
    100 120 eq_refl eq_refl eq_refl).
  vm_compute in H. discriminate.
Qed.

(** C1, amended: when the prior and the current lowest prices are both
    present and the current listing count is present too, the cycle emits
    exactly one price-change message if the absolute difference of the two
    prices exceeds 0.01, upward when the price rose and downward otherwise,
    and none if the difference is at most 0.01.  Without a prior
    observation, a price on both sides and a current listing count, none is
    emitted.  From 100.00 to 100.005 there is no message. *)
Theorem price_change_rule target notify st summary :
  filter is_price_change (alerts_of target notify st summary) =
    match prior_lowest st, lowest_price summary, num_listings summary with
    | Some last_lowest, Some lp, Some _ =>
        if threshold <? abs (lp - last_lowest)
        then [PriceChange (last_lowest <? lp) last_lowest lp]
        else []
    | _, _, _ => []
    end
  /\ (forall n,
      prior_lowest st = Some 100 ->
      lowest_price summary = Some 0x1.90051eb851eb8p+6 ->
      num_listings summary = Some n ->
      filter is_price_change (alerts_of target notify st summary) = []).
Proof.
  assert (E : filter is_price_change (alerts_of target notify st summary) =
    match prior_lowest st, lowest_price summary, num_listings summary with
    | Some last_lowest, Some lp, Some _ =>
        if threshold <? abs (lp - last_lowest)
        then [PriceChange (last_lowest <? lp) last_lowest lp]
        else []
    | _, _, _ => []
    end).
  { rewrite filter_price_change. unfold price_alerts, prior_lowest.
    destruct (last_state st) as [ls|]; [|reflexivity].
    destruct (num_listings summary), (last_lowest_price ls),
      (lowest_price summary); reflexivity. }
  split; [exact E|].
  intros n H1 H2 H3. rewrite E, H1, H2, H3. reflexivity.
Qed.

(** ** Market snapshot *)

(** In a sorted list the first [k] elements are the [k] lowest. *)
Lemma firstn_lowest k l a b :
  StronglySorted fle l ->
  In a (firstn k l) -> In b (skipn k l) -> fle a b.
Proof.
  intros Hs. revert k. induction Hs as [|x l Hs IH Hx]; intros k Ha Hb.
  - destruct k; destruct Ha.
  - destruct k as [|k]; [destruct Ha|]. simpl in Ha, Hb.
    destruct Ha as [<-|Ha]; [|eapply IH; eassumption].
    rewrite Forall_forall in Hx. apply Hx.
    rewrite <- (firstn_skipn k l). apply in_or_app. now right.
Qed.

(** C8: a market message is emitted exactly when the cycle emitted a
    listing-change or a price-change message and the current price list is
    not empty.  It is then the only one; it carries the first five prices of
    the list (all of them when there are fewer), which are the five lowest
    since the list is sorted, and the element at index [count / 2] of the
    sorted first ten (of all of them when there are fewer).  For the prices
    5, 6, 7, 8 that element is 7. *)
Theorem market_snapshot_rule target notify st summary :
  let msgs := alerts_of target notify st summary in
  let prices := all_prices summary in
  filter is_market_update msgs =
    (if (existsb is_listing_change msgs || existsb is_price_change msgs)
        && negb (match prices with [] => true | _ => false end)
     then [MarketUpdate (firstn 5 prices)
             (nth (List.length (firstn 10 prices) / 2)
                (sorted (firstn 10 prices)) 0)]
     else [])
  /\ (StronglySorted fle prices ->
      forall a b, In a (firstn 5 prices) -> In b (skipn 5 prices) ->
                  fle a b)
  /\ (List.length (firstn 10 prices) / 2 < List.length (firstn 10 prices)
      \/ prices = [])%nat
  /\ nth (List.length (firstn 10 [5; 6; 7; 8]) / 2)
       (sorted (firstn 10 [5; 6; 7; 8])) 0 = 7.
Proof.
  intros msgs prices. split; [|split; [|split; [|reflexivity]]];
    [|intros Hs a b; apply firstn_lowest, Hs|].
  2:{ destruct prices as [|x l]; [now right|left].
      apply Nat.div_lt; [simpl; lia|lia]. }
  unfold msgs. rewrite !existsb_filter, filter_market_update,
    filter_listing_change, filter_price_change.
  unfold market_alerts, movement_detected. rewrite !lowest_firstn.
  fold prices.
  destruct (listing_alerts _ _), (price_alerts _ _), prices; reflexivity.
Qed.

(** ** New all-time low *)

(** C5: after a cycle, a second cycle on the same summary emits no new-low
    message, whatever the summary, the state and the policy; and a cycle
    that emits one leaves the effective low as the all-time low. *)
Theorem new_low_idempotent target notify st summary :
  existsb is_new_low
    (alerts_of target notify (state_after target notify st summary) summary)
  = false
  /\ (existsb is_new_low (alerts_of target notify st summary) = true ->
      all_time_low (state_after target notify st summary)
      = effective_low_of summary).
Proof.
  rewrite !existsb_filter, !filter_new_low.
  unfold state_after, detect, new_low_alerts.
  destruct notify; [|split; [reflexivity|discriminate]].
  destruct (effective_low_of summary) as [e|];
    [|split; [reflexivity|discriminate]].
  destruct (all_time_low st) as [l|]; simpl.
  - destruct (e <? l - tolerance)%float eqn:E; simpl.
    + rewrite ltb_sub_tolerance. split; reflexivity.
    + rewrite E. split; [reflexivity|discriminate].
  - rewrite ltb_sub_tolerance. split; reflexivity.
Qed.

(** ** The amounts the pattern matches *)

Lemma take_digits_all_digits s :
  all_digits (fst (take_digits s)) = true.
Proof.
  induction s as [|c r IH]; simpl; [reflexivity|].
  destruct (is_digit c) eqn:E; [|reflexivity].
  destruct (take_digits r) as [ds rest]. simpl in *. now rewrite E.
Qed.

(** Digits followed by text that starts with no digit are read back as they
    are. *)
Lemma take_digits_app ds f :
  all_digits ds = true ->
  match f with
  | EmptyString => True
  | String c _ => is_digit c = false
  end ->
  take_digits (ds ++ f) = (ds, f).
Proof.
  induction ds as [|c r IH]; simpl; intros Hd Hf.
  - destruct f as [|c r]; [reflexivity|]. simpl. now rewrite Hf.
  - apply andb_prop in Hd. destruct Hd as [Hc Hr].
    rewrite Hc, (IH Hr Hf). reflexivity.
Qed.

Lemma dot_is_no_digit c : (code c =? 46)%N = true -> is_digit c = false.
Proof.
  intros H. apply N.eqb_eq in H. unfold is_digit. rewrite H. reflexivity.
Qed.

(** The optional group is empty, or a dot and one or two digits. *)
Lemma fraction_part_shape s :
  fraction_part s = EmptyString
  \/ exists dot fp,
       fraction_part s = String dot fp
       /\ (code dot =? 46)%N = true /\ all_digits fp = true.
Proof.
  destruct s as [|dot [|d1 r1]]; simpl; auto.
  destruct ((code dot =? 46)%N) eqn:Hdot; simpl; auto.
  destruct (is_digit d1) eqn:H1; simpl; auto.
  right. destruct r1 as [|d2 r2].
  - exists dot, (String d1 EmptyString). simpl. now rewrite H1.
  - destruct (is_digit d2) eqn:H2.
    + exists dot, (String d1 (String d2 EmptyString)). simpl.
      now rewrite H1, H2.
    + exists dot, (String d1 EmptyString). simpl. now rewrite H1.
Qed.

(** Group 1 of a match is a literal that [float] accepts. *)
Lemma money_match_is_float s g :
  money_match_here s = Some g -> exists v, py_float g = Some v.
Proof.
  unfold money_match_here.
  pose proof (take_digits_all_digits (lstrip s)) as Hd.
  destruct (take_digits (lstrip s)) as [ds rest]. simpl in Hd.
  destruct (is_empty ds) eqn:He; [discriminate|].
  intros H. injection H as <-. unfold py_float.
  destruct (fraction_part_shape rest) as [->|[dot [fp [-> [Hdot Hfp]]]]].
  - rewrite take_digits_app by (auto; exact I). rewrite He. eauto.
  - rewrite take_digits_app by (auto; now apply dot_is_no_digit).
    rewrite He, Hdot, Hfp. simpl. eauto.
Qed.

Lemma search_is_float s g :
  _MONEY_RE_search s = Some g -> exists v, py_float g = Some v.
Proof.
  induction s as [|c r IH]; simpl; [discriminate|].
  destruct ((code c =? 36)%N); [|exact IH].
  destruct (money_match_here r) as [g'|] eqn:E; [|exact IH].
  intros H. injection H as <-. eapply money_match_is_float, E.
Qed.

(** The parser never raises. *)
Lemma parse_returns soup : exists s, parse_prices_summary soup = Returned s.
Proof.
  unfold parse_prices_summary.
  destruct (first_amount (label_parents lowest_price_re soup)); [eauto|].
  destruct (_MONEY_RE_search (get_text soup)) as [g|] eqn:E; [|eauto].
  destruct (search_is_float _ _ E) as [v ->]. eauto.
Qed.

(** ** The floats of the parser *)

Lemma float_of_decimal_nonneg n k :
  has_sign false (Prim2SF (float_of_decimal n k)) = true.
Proof.
  destruct n as [|p]; [reflexivity|].
  apply SF2Prim_nonneg, SFdiv_nonneg.
Qed.

Lemma py_float_nonneg g v :
  py_float g = Some v -> has_sign false (Prim2SF v) = true.
Proof.
  unfold py_float. destruct (take_digits g) as [ip rest].
  destruct (is_empty ip); [discriminate|].
  destruct rest as [|dot fp].
  - intros H. injection H as <-. apply float_of_decimal_nonneg.
  - destruct ((code dot =? 46)%N && all_digits fp); [|discriminate].
    intros H. injection H as <-. apply float_of_decimal_nonneg.
Qed.

Lemma _parse_money_nonneg text v :
  _parse_money text = Some v -> has_sign false (Prim2SF v) = true.
Proof.
  unfold _parse_money. destruct (is_empty text); [discriminate|].
  destruct (_MONEY_RE_search (remove_commas text)) as [g|]; [|discriminate].
  destruct (py_float g) as [w|] eqn:E; [|discriminate].
  intros H. injection H as <-. eapply py_float_nonneg, E.
Qed.

Lemma has_sign_ordered sx x : has_sign sx (Prim2SF x) = true -> ordered x.
Proof.
  unfold ordered, fkey. destruct (Prim2SF x) as [[]|[]| |[] m e];
    simpl; congruence.
Qed.

Lemma fkey_zero : fkey 0 = Some (0, 0, 0)%Z.
Proof. reflexivity. Qed.

(** A float that is not negative and not zero is above zero. *)
Lemma nonneg_truthy_positive x :
  has_sign false (Prim2SF x) = true -> truthy x = true -> (0 <? x) = true.
Proof.
  unfold truthy. rewrite eqb_key, ltb_key, fkey_zero. unfold fkey.
  destruct (Prim2SF x) as [[]|[]| |[] m e]; simpl; try discriminate;
    try reflexivity.
Qed.

(** What the loop over the cells keeps: an amount that is truthy. *)
Lemma first_price_kept td_texts price :
  first_price td_texts = Some price ->
  has_sign false (Prim2SF price) = true /\ truthy price = true.
Proof.
  induction td_texts as [|td rest IH]; simpl; [discriminate|].
  destruct (_parse_money td) as [v|] eqn:E; [|exact IH].
  destruct (truthy v) eqn:T; [|exact IH].
  intros H. injection H as <-. split; [|exact T].
  eapply _parse_money_nonneg, E.
Qed.

Lemma row_prices_kept rows :
  Forall (fun price => has_sign false (Prim2SF price) = true
                       /\ truthy price = true) (row_prices rows).
Proof.
  induction rows as [|tr rest IH]; simpl; [constructor|].
  destruct (has_buy tr); simpl; [|exact IH].
  destruct (first_price _) as [price|] eqn:E; [|exact IH].
  constructor; [|exact IH]. eapply first_price_kept, E.
Qed.

Lemma row_prices_no_buy rows :
  (forall tr, In tr rows -> has_buy tr = false) -> row_prices rows = [].
Proof.
  induction rows as [|tr rest IH]; simpl; intros H; [reflexivity|].
  rewrite (H tr (or_introl eq_refl)). simpl. apply IH. auto.
Qed.

(** ** Sorting and the minimum *)

Lemma insert_sorted_In x y l : In y (insert_sorted x l) <-> y = x \/ In y l.
Proof.
  induction l as [|z l IH]; simpl.
  - intuition.
  - destruct (z <? x); simpl; [rewrite IH|]; intuition.
Qed.

Lemma sorted_In y l : In y (sorted l) <-> In y l.
Proof.
  induction l as [|x l IH]; simpl; [reflexivity|].
  rewrite insert_sorted_In, IH. intuition.
Qed.

Lemma insert_sorted_length x l :
  List.length (insert_sorted x l) = S (List.length l).
Proof.
  induction l as [|z l IH]; simpl; [reflexivity|].
  destruct (z <? x); simpl; [now rewrite IH|reflexivity].
Qed.

Lemma sorted_length l : List.length (sorted l) = List.length l.
Proof.
  induction l as [|x l IH]; simpl; [reflexivity|].
  now rewrite insert_sorted_length, IH.
Qed.

Lemma sorted_Forall (P : float -> Prop) l : Forall P l -> Forall P (sorted l).
Proof.
  rewrite !Forall_forall. intros H y Hy. apply H, sorted_In, Hy.
Qed.

Lemma insert_sorted_sorted x l :
  ordered x -> Forall ordered l ->
  StronglySorted fle l -> StronglySorted fle (insert_sorted x l).
Proof.
  intros Hx. induction l as [|z l IH]; simpl; intros Ho Hs.
  - repeat constructor.
  - inversion Ho as [|? ? Hz Hl]; subst.
    inversion Hs as [|? ? Hs' Hzl]; subst.
    destruct (z <? x) eqn:E.
    + constructor; [apply IH; assumption|].
      apply Forall_forall. intros y Hy. apply insert_sorted_In in Hy.
      destruct Hy as [->|Hy]; [apply ltb_fle, E|].
      rewrite Forall_forall in Hzl. apply Hzl, Hy.
    + assert (Hxz : fle x z) by (apply fle_total; assumption).
      constructor; [assumption|]. constructor; [assumption|].
      eapply Forall_impl; [|exact Hzl]. intros y Hy.
      eapply fle_trans; eassumption.
Qed.

Lemma sorted_sorted l : Forall ordered l -> StronglySorted fle (sorted l).
Proof.
  induction l as [|x l IH]; simpl; intros Ho; [constructor|].
  inversion Ho; subst.
  apply insert_sorted_sorted; auto. apply sorted_Forall. assumption.
Qed.

(** The minimum of a list that starts with nothing above its head is the
    head. *)
Lemma py_min_head x l : Forall (fle x) l -> py_min x l = x.
Proof.
  unfold py_min. induction l as [|y l IH]; simpl; intros H; [reflexivity|].
  inversion H as [|? ? Hy Hl]; subst.
  rewrite (fle_not_ltb _ _ Hy). apply IH, Hl.
Qed.

(** The minimum, read from the right: the minimum of the tail when it is
    below the head, the head otherwise. *)
Lemma py_min_cons c b l :
  ordered c -> ordered b -> Forall ordered l ->
  py_min c (b :: l) =
    (let m := py_min b l in if m <? c then m else c).
Proof.
  unfold py_min. revert c b.
  induction l as [|b2 l IH]; intros c b Hc Hb Hl; simpl.
  - reflexivity.
  - inversion Hl as [|? ? Hb2 Hl']; subst.
    assert (Hcb : ordered (if b <? c then b else c))
      by (destruct (b <? c); assumption).
    pose proof (IH _ b2 Hcb Hb2 Hl') as H1. simpl in H1. rewrite H1.
    pose proof (IH b b2 Hb Hb2 Hl') as H2. simpl in H2. rewrite H2.
    set (m2 := fold_left _ l b2).
    clear H1 H2 IH.
    unfold ordered in Hc, Hb.
    destruct (fkey c) as [kc|] eqn:Kc; [|congruence].
    destruct (fkey b) as [kb|] eqn:Kb; [|congruence].
    destruct (b <? c) eqn:E1; destruct (m2 <? b) eqn:E2;
      destruct (m2 <? c) eqn:E3; try reflexivity;
      rewrite ?E1, ?E2, ?E3; try reflexivity;
      rewrite ?ltb_key, ?Kc, ?Kb in *;
      destruct (fkey m2) as [km|]; try discriminate; key_arith.
Qed.

Lemma py_min_ordered x l :
  ordered x -> Forall ordered l -> ordered (py_min x l).
Proof.
  unfold py_min. revert x. induction l as [|y l IH]; simpl; intros x Hx Hl;
    [assumption|].
  inversion Hl; subst. apply IH; [|assumption].
  destruct (y <? x); assumption.
Qed.

(** The head of the sorted list is the minimum of the list. *)
Lemma sorted_head x l :
  ordered x -> Forall ordered l ->
  exists t, sorted (x :: l) = py_min x l :: t.
Proof.
  revert x. induction l as [|b l IH]; intros x Hx Hl.
  - exists []. reflexivity.
  - inversion Hl as [|? ? Hb Hl']; subst.
    destruct (IH b Hb Hl') as [t Ht].
    rewrite py_min_cons by assumption. cbv zeta.
    change (sorted (x :: b :: l)) with (insert_sorted x (sorted (b :: l))).
    rewrite Ht. simpl.
    destruct (py_min b l <? x); eauto.
Qed.

(** ** The summary of a page *)

(** What the parser returns, from the prices of the rows. *)
Lemma parse_prices_summary_eq soup :
  exists lowest median,
    parse_prices_summary soup =
      Returned
        {| lowest_price := lowest;
           median_sale := median;
           computed_min_price :=
             match row_prices (select_table_tr false soup) with
             | [] => None
             | x :: l => Some (py_min x l)
             end;
           num_listings :=
             match row_prices (select_table_tr false soup) with
             | [] => None
             | _ :: _ =>
                 Some (Z.of_nat
                         (List.length
                            (row_prices (select_table_tr false soup))))
             end;
           all_prices :=
             match row_prices (select_table_tr false soup) with
             | [] => []
             | _ :: _ => sorted (row_prices (select_table_tr false soup))
             end |}.
Proof.
  destruct (parse_returns soup) as [s Hs]. revert Hs.
  unfold parse_prices_summary.
  destruct (first_amount (label_parents lowest_price_re soup)) as [v|].
  - intros _. eauto.
  - destruct (_MONEY_RE_search (get_text soup)) as [g|]; [|eauto].
    destruct (py_float g); [eauto|discriminate].
Qed.

Lemma row_prices_ordered rows : Forall ordered (row_prices rows).
Proof.
  eapply Forall_impl; [|apply row_prices_kept].
  intros p [H _]. eapply has_sign_ordered, H.
Qed.

Lemma row_prices_positive rows :
  Forall (fun p => (0 <? p) = true) (row_prices rows).
Proof.
  eapply Forall_impl; [|apply row_prices_kept].
  intros p [H T]. apply nonneg_truthy_positive; assumption.
Qed.

(** C3: for every page the parser returns a summary whose price list is
    sorted in non-decreasing order; when the list is not empty the computed
    minimum is the minimum of the list, which is its first element, and the
    listing count is its length; when it is empty both are absent. *)
Theorem parse_summary_invariant soup :
  exists s,
    parse_prices_summary soup = Returned s
    /\ StronglySorted fle (all_prices s)
    /\ match all_prices s with
       | [] => computed_min_price s = None /\ num_listings s = None
       | x :: l =>
           computed_min_price s = Some (py_min x l)
           /\ computed_min_price s = Some x
           /\ num_listings s = Some (Z.of_nat (List.length (all_prices s)))
       end.
Proof.
  destruct (parse_prices_summary_eq soup) as [lowest [median ->]].
  eexists. split; [reflexivity|]. simpl.
  pose proof (row_prices_ordered (select_table_tr false soup)) as Ho.
  destruct (row_prices (select_table_tr false soup)) as [|x l] eqn:E.
  - split; [constructor|]. split; reflexivity.
  - pose proof (sorted_sorted _ Ho) as Hs.
    inversion Ho as [|? ? Hx Hl]; subst.
    destruct (sorted_head x l Hx Hl) as [t Ht].
    rewrite Ht in *. split; [exact Hs|].
    inversion Hs as [|? ? _ Hhead]; subst.
    rewrite (py_min_head _ _ Hhead).
    split; [reflexivity|]. split; [reflexivity|].
    rewrite <- Ht, sorted_length. reflexivity.
Qed.

(** Once the tree is built: a page with no table row that passes the "Buy"
    test is parsed without an exception, to a summary with no listing
    count, no computed minimum and an empty price list; and no tree at all
    makes the parser raise. *)
Lemma tree_without_buy_rows soup :
  (forall tr, In tr (select_table_tr false soup) -> has_buy tr = false) ->
  (exists s,
      parse_prices_summary soup = Returned s
      /\ num_listings s = None
      /\ computed_min_price s = None
      /\ all_prices s = [])
  /\ (forall markup, exists s, parse_prices_summary markup = Returned s).
Proof.
  intros H. split; [|exact parse_returns].
  destruct (parse_prices_summary_eq soup) as [lowest [median ->]].
  rewrite (row_prices_no_buy _ H). eexists. repeat split.
Qed.

(** The page [page_without_buy] has a table row with a price and the word
    "Buyer", which is no "Buy" token. *)
Example tree_without_buy_rows_run :
  exists s,
    parse_prices_summary page_without_buy = Returned s
    /\ num_listings s = None
    /\ computed_min_price s = None
    /\ all_prices s = [].
Proof.
  refine (proj1 (tree_without_buy_rows page_without_buy _)).
  intros tr Htr. vm_compute in Htr.
  destruct Htr as [<-|[]]. reflexivity.
Qed.

(** C4: what the parser does with a page depends on the tree builder
    alone.  From markup the tree builder rejects, the parser raises the
    exception of the builder.  From markup it builds a tree of, the parser
    returns a summary, never an exception; and when no table row of the
    tree passes the "Buy" test, the summary has no listing count, no
    computed minimum and an empty price list. *)
Theorem parse_html_without_buy_rows BeautifulSoup html :
  match BeautifulSoup html with
  | Raised => parse_prices_summary_of_html BeautifulSoup html = Raised
  | Returned soup =>
      (exists s,
          parse_prices_summary_of_html BeautifulSoup html = Returned s)
      /\ ((forall tr,
              In tr (select_table_tr false soup) -> has_buy tr = false) ->
          exists s,
            parse_prices_summary_of_html BeautifulSoup html = Returned s
            /\ num_listings s = None
            /\ computed_min_price s = None
            /\ all_prices s = [])
  end.
Proof.
  unfold parse_prices_summary_of_html.
  destruct (BeautifulSoup html) as [soup|]; [|reflexivity].
  split; [apply parse_returns|].
  intros H. exact (proj1 (tree_without_buy_rows soup H)).
Qed.

(** Refutes C4 as stated: [page_rejected] has no table row at all, yet its
    markup is of the kind the tree builder rejects, and with any tree
    builder that does so the parser returns no summary for it. *)
Lemma rejected_markup_raises :
  rejected_markup page_rejected = true
  /\ forall BeautifulSoup : string -> outcome node,
       (forall html, rejected_markup html = true ->
                     BeautifulSoup html = Raised) ->
       ~ (exists s,
             parse_prices_summary_of_html BeautifulSoup page_rejected
             = Returned s).
Proof.
  split; [reflexivity|].
  intros BeautifulSoup H [s Hs].
  unfold parse_prices_summary_of_html in Hs.
  rewrite (H page_rejected eq_refl) in Hs. discriminate.
Qed.

(** C10: every price of the list the parser returns is above zero, and so
    is the computed minimum; the listing count is the length of that list.
    A cell whose amount is zero is passed over: the price of the row is
    looked for in the cells after it. *)
Theorem all_prices_positive soup :
  exists s,
    parse_prices_summary soup = Returned s
    /\ Forall (fun p => (0 <? p) = true) (all_prices s)
    /\ (forall m, computed_min_price s = Some m -> (0 <? m) = true)
    /\ (forall n, num_listings s = Some n ->
        n = Z.of_nat (List.length (all_prices s)))
    /\ (forall td rest v,
        _parse_money td = Some v -> (v =? 0) = true ->
        first_price (td :: rest) = first_price rest)
    /\ first_price ["$0.00"; "$100"]%string = Some 100.
Proof.
  destruct (parse_prices_summary_eq soup) as [lowest [median ->]].
  eexists. split; [reflexivity|]. simpl.
  pose proof (row_prices_positive (select_table_tr false soup)) as Hp.
  pose proof (row_prices_ordered (select_table_tr false soup)) as Ho.
  destruct (row_prices (select_table_tr false soup)) as [|x l] eqn:E.
  - split; [constructor|]. split; [discriminate|]. split; [discriminate|].
    split; [|reflexivity].
    intros td rest v Hv Hz. simpl. rewrite Hv. unfold truthy.
    now rewrite Hz.
  - apply sorted_Forall in Hp.
    inversion Ho as [|? ? Hx Hl]; subst.
    destruct (sorted_head x l Hx Hl) as [t Ht].
    split; [exact Hp|]. split; [|split; [|split; [|reflexivity]]].
    + intros m Hm. injection Hm as <-. rewrite Ht in Hp.
      inversion Hp; assumption.
    + intros n Hn. injection Hn as <-. now rewrite sorted_length.
    + intros td rest v Hv Hz. simpl. rewrite Hv. unfold truthy.
      now rewrite Hz.
Qed.

(** ** The fallback for the lowest price *)

(** When no labelled region holds an amount, the lowest price is the first
    match of the pattern in the text of the page, read as it is written. *)
Lemma fallback_rule soup :
  first_amount (label_parents lowest_price_re soup) = None ->
  exists s,
    parse_prices_summary soup = Returned s
    /\ lowest_price s =
         match _MONEY_RE_search (get_text soup) with
         | Some g => py_float g
         | None => None
         end.
Proof.
  intros H. unfold parse_prices_summary. rewrite H.
  destruct (_MONEY_RE_search (get_text soup)) as [g|] eqn:E.
  - destruct (search_is_float _ _ E) as [v ->]. eauto.
  - eauto.
Qed.

(** C2, at the input where the code departs from it: the page has no
    label and its text is "From $1,234.50".  The rule of the other paths,
    which strips the commas first, reads 1234.5 there; the fallback searches
    the text with its commas and returns 1. *)
Theorem fallback_keeps_commas :
  first_amount (label_parents lowest_price_re page_with_commas) = None
  /\ get_text page_with_commas = "From $1,234.50"%string
  /\ _parse_money (get_text page_with_commas) = Some 1234.5
  /\ exists s,
       parse_prices_summary page_with_commas = Returned s
       /\ lowest_price s = Some 1.
Proof.
  split; [reflexivity|]. split; [reflexivity|]. split; [reflexivity|].
  eexists. split; reflexivity.
Qed.

(** ** The lowest price of the history *)

(** The minimum is an element of the list and no element is below it; it
    holds for every float, NaN included. *)
Lemma py_min_spec x l :
  In (py_min x l) (x :: l)
  /\ forall y, In y (x :: l) -> (y <? py_min x l) = false.
Proof.
  unfold py_min.
  assert (H : forall cur,
             (fold_left (fun cur item => if item <? cur then item else cur)
                l cur = cur
              \/ In (fold_left
                       (fun cur item => if item <? cur then item else cur)
                       l cur) l)
             /\ (forall y, (y <? cur) = false ->
                 (y <? fold_left
                         (fun cur item => if item <? cur then item else cur)
                         l cur) = false)
             /\ (forall y, In y l ->
                 (y <? fold_left
                         (fun cur item => if item <? cur then item else cur)
                         l cur) = false)).
  { induction l as [|a l IH]; intros cur; simpl.
    - split; [now left|]. split; [auto|]. intros y [].
    - destruct (IH (if a <? cur then a else cur)) as [Hin [Hlow Hall]].
      split; [|split].
      + destruct Hin as [->|Hin]; [|now right; right].
        destruct (a <? cur); [right; now left|now left].
      + intros y Hy. apply Hlow.
        destruct (a <? cur) eqn:E; [|exact Hy].
        eapply ltb_below; eassumption.
      + intros y [<-|Hy]; [|apply Hall, Hy].
        apply Hlow. destruct (a <? cur) eqn:E; [apply ltb_irrefl|exact E]. }
  destruct (H x) as [Hin [Hlow Hall]]. split.
  - destruct Hin as [->|Hin]; [now left|now right].
  - intros y [<-|Hy]; [apply Hlow, ltb_irrefl|apply Hall, Hy].
Qed.

Section HistoryFacts.

Variable builtin_float : string -> option float.

(** The comprehension returns the floats of the truthy fields when each of
    them is a float, and raises when one is not. *)
Lemma lows_of_returned rows lows :
  lows_of builtin_float rows = Returned lows <->
  map builtin_float (lowest_fields rows) = map Some lows.
Proof.
  revert lows. induction rows as [|row rest IH]; intros lows; simpl.
  - split.
    + intros H. injection H as <-. reflexivity.
    + destruct lows; [reflexivity|discriminate].
  - destruct (field_lowest_price row) as [s|]; simpl; [|apply IH].
    destruct (is_empty s); simpl; [apply IH|].
    destruct (builtin_float s) as [v|].
    + destruct (lows_of builtin_float rest) as [lows'|] eqn:E.
      * split.
        -- intros H. injection H as <-. simpl. f_equal.
           apply IH. reflexivity.
        -- destruct lows as [|w lows]; [discriminate|]. simpl.
           intros H. injection H as <- H. apply IH in H.
           injection H as <-. reflexivity.
      * split; [discriminate|].
        destruct lows as [|w lows]; [discriminate|]. simpl.
        intros H. injection H as _ H. apply IH in H. discriminate.
    + split; [discriminate|]. destruct lows; discriminate.
Qed.

Lemma lows_of_raised rows :
  lows_of builtin_float rows = Raised <->
  exists f, In f (lowest_fields rows) /\ builtin_float f = None.
Proof.
  induction rows as [|row rest IH]; simpl.
  - split; [discriminate|]. intros [f [[] _]].
  - destruct (field_lowest_price row) as [s|]; simpl; [|apply IH].
    destruct (is_empty s); simpl; [apply IH|].
    destruct (builtin_float s) as [v|] eqn:Es.
    + destruct (lows_of builtin_float rest) as [lows'|] eqn:E.
      * split; [discriminate|].
        intros [f [[<-|Hf] Hn]]; [congruence|].
        assert (C : Returned lows' = Raised) by (apply IH; eauto).
        discriminate.
      * split; [|reflexivity]. intros _.
        destruct (proj1 IH eq_refl) as [f [Hf Hn]]. eauto.
    + split; [|reflexivity]. intros _. exists s. split; [now left|exact Es].
Qed.

(** C9: [read_last_lowest] returns nothing when the file is missing, when
    opening or reading it raises, when no record has a lowest price, and
    when a lowest price of some record is no float; otherwise it returns a
    minimum of the lowest prices of all the records: one of them, with none
    of them below it. *)
Theorem read_last_lowest_min :
  read_last_lowest builtin_float Missing = None
  /\ (forall rows, read_last_lowest builtin_float (Broken rows) = None)
  /\ (forall rows,
      lowest_fields rows = [] ->
      read_last_lowest builtin_float (Readable rows) = None)
  /\ (forall rows f,
      In f (lowest_fields rows) -> builtin_float f = None ->
      read_last_lowest builtin_float (Readable rows) = None)
  /\ (forall rows lows,
      map builtin_float (lowest_fields rows) = map Some lows ->
      lows <> [] ->
      exists m,
        read_last_lowest builtin_float (Readable rows) = Some m
        /\ In m lows
        /\ forall x, In x lows -> (x <? m) = false).
Proof.
  split; [reflexivity|]. split; [reflexivity|]. split; [|split].
  - intros rows H. simpl.
    assert (E : lows_of builtin_float rows = Returned [])
      by (apply lows_of_returned; now rewrite H).
    now rewrite E.
  - intros rows f Hf Hn. simpl.
    assert (E : lows_of builtin_float rows = Raised)
      by (apply lows_of_raised; eauto).
    now rewrite E.
  - intros rows lows H Hne. simpl.
    apply lows_of_returned in H. rewrite H.
    destruct lows as [|x l]; [congruence|].
    exists (py_min x l). split; [reflexivity|]. apply py_min_spec.
Qed.

End HistoryFacts.

(** ** The scenarios of the specification, run *)

Example scenario_three_rows :
  parse_prices_summary page_three_rows =
    Returned {| lowest_price := Some 120;
                median_sale := None;
                computed_min_price := Some 100;
                num_listings := Some 3%Z;
                all_prices := [100; 130; 150] |}.
Proof. reflexivity. Qed.

Example scenario_cycle :
  alerts_of 125 true
    {| all_time_low := Some 110;
       last_state := Some {| last_lowest_price := Some 100;
                             last_num_listings := Some 5%Z;
                             last_all_prices := [] |} |}
    {| lowest_price := Some 120;
       median_sale := None;
       computed_min_price := Some 100;
       num_listings := Some 3%Z;
       all_prices := [5; 6; 7; 8] |}
  = [ TargetHit 120 125;
      NewLow 100 (Some 110);
      Sold 2 3;
      PriceChange true 100 120;
      MarketUpdate [5; 6; 7; 8] 7 ].
Proof. reflexivity. Qed.

Example scenario_history :
  read_last_lowest py_float
    (Readable [ {| field_lowest_price := Some "120.0"%string |};
                {| field_lowest_price := Some ""%string |};
                {| field_lowest_price := None |};
                {| field_lowest_price := Some "99.5"%string |} ])
  = Some 99.5.
Proof. reflexivity. Qed.

(** * Further properties of the cycle *)

(** ** A float minus itself *)

Lemma SFsub_self_abs prec emax s mt et :
  SFltb (S754_finite false mt et) (SFabs (SFsub prec emax s s)) = false.
Proof.
  destruct s as [[]|[]| |sx mx ex]; try reflexivity.
  unfold SFsub. rewrite Z.sub_diag. reflexivity.
Qed.

(** The difference of a price with itself never exceeds the threshold,
    also when the price is an infinity. *)
Lemma abs_sub_self x : (threshold <? abs (x - x)) = false.
Proof.
  rewrite FloatAxioms.ltb_spec, abs_spec, FloatAxioms.sub_spec.
  change (Prim2SF threshold)
    with (S754_finite false 5764607523034235 (-59)).
  apply SFsub_self_abs.
Qed.

Lemma sub_ordered x y : ordered (x - y) -> ordered x.
Proof.
  unfold ordered, fkey. rewrite FloatAxioms.sub_spec.
  destruct (Prim2SF x) as [[]|[]| |[] m e]; intros H; simpl;
    try discriminate.
  exfalso. apply H. reflexivity.
Qed.

(** Below the all-time low less the tolerance is below the all-time
    low. *)
Lemma below_tolerance_below e l :
  (e <? l - tolerance) = true -> (e <? l) = true.
Proof.
  intros H. pose proof (ltb_sub_tolerance l) as Hl.
  assert (Ho : ordered l).
  { apply (sub_ordered l tolerance). apply ltb_fle, fle_ordered in H.
    apply H. }
  unfold ordered in Ho. rewrite ltb_key in *.
  destruct (fkey e), (fkey (l - tolerance)), (fkey l);
    try discriminate; try congruence; key_arith.
Qed.

(** The new-low rule, run again on what it left, is silent and leaves the
    same. *)
Lemma new_low_alerts_again notify low summary :
  new_low_alerts notify (snd (new_low_alerts notify low summary)) summary
  = ([], snd (new_low_alerts notify low summary)).
Proof.
  unfold new_low_alerts. destruct notify; [|reflexivity].
  destruct (effective_low_of summary) as [e|]; [|reflexivity].
  destruct low as [l|]; simpl.
  - destruct (e <? l - tolerance) eqn:E; simpl.
    + now rewrite ltb_sub_tolerance.
    + now rewrite E.
  - now rewrite ltb_sub_tolerance.
Qed.

Lemma state_after_eq target notify st summary :
  state_after target notify st summary =
    {| all_time_low :=
         snd (new_low_alerts notify (all_time_low st) summary);
       last_state :=
         Some {| last_lowest_price := lowest_price summary;
                 last_num_listings := num_listings summary;
                 last_all_prices := all_prices summary |} |}.
Proof.
  unfold state_after, detect.
  destruct (new_low_alerts notify (all_time_low st) summary); reflexivity.
Qed.

(** X1: a page that does not change is quiet.  When a cycle follows a
    cycle on the same summary, every message it emits is a target hit, and
    it leaves the state as it found it. *)
Theorem steady_page_is_quiet target notify st summary :
  let st1 := state_after target notify st summary in
  (forall a, In a (alerts_of target notify st1 summary) ->
             is_target_hit a = true)
  /\ state_after target notify st1 summary = st1.
Proof.
  intros st1. unfold st1.
  rewrite (state_after_eq target notify (state_after _ _ _ _)).
  rewrite alerts_of_eq, state_after_eq. cbn [all_time_low last_state].
  rewrite new_low_alerts_again. cbn [fst snd].
  assert (Hl : listing_alerts
                 (Some {| last_lowest_price := lowest_price summary;
                          last_num_listings := num_listings summary;
                          last_all_prices := all_prices summary |}) summary
               = []).
  { unfold listing_alerts. simpl.
    destruct (num_listings summary) as [k|]; [|reflexivity].
    now rewrite Z.eqb_refl. }
  assert (Hp : price_alerts
                 (Some {| last_lowest_price := lowest_price summary;
                          last_num_listings := num_listings summary;
                          last_all_prices := all_prices summary |}) summary
               = []).
  { unfold price_alerts. simpl.
    destruct (num_listings summary); [|reflexivity].
    destruct (lowest_price summary) as [lp|]; [|reflexivity].
    now rewrite abs_sub_self. }
  unfold movement_detected. rewrite Hl, Hp. simpl.
  rewrite app_nil_r. split; [|reflexivity].
  unfold target_alerts. split_cases; in_cases.
Qed.

(** X2: the all-time low never rises and, once known, stays known: after
    a cycle it is the low of before, or a float strictly below it. *)
Theorem all_time_low_never_rises target notify st summary l :
  all_time_low st = Some l ->
  exists l',
    all_time_low (state_after target notify st summary) = Some l'
    /\ (l' = l \/ (l' <? l) = true).
Proof.
  intros H. rewrite state_after_eq. simpl. rewrite H.
  assert (Hsame : exists l', Some l = Some l' /\ (l' = l \/ (l' <? l) = true))
    by (exists l; split; [reflexivity|now left]).
  unfold new_low_alerts. destruct notify; [|exact Hsame].
  destruct (effective_low_of summary) as [e|]; [|exact Hsame].
  destruct (e <? l - tolerance) eqn:E; simpl; [|exact Hsame].
  exists e. split; [reflexivity|]. right.
  apply below_tolerance_below, E.
Qed.

Lemma all_time_low_never_rises_witness :
  exists l',
    all_time_low
      (state_after 0 true
         {| all_time_low := Some 110; last_state := None |}
         {| lowest_price := Some 120; median_sale := None;
            computed_min_price := Some 100; num_listings := Some 3%Z;
            all_prices := [100; 130; 150] |}) = Some l'
    /\ (l' = 110 \/ (l' <? 110) = true).
Proof.
  apply (all_time_low_never_rises 0 true
           {| all_time_low := Some 110; last_state := None |}).
  reflexivity.
Defined.

(** X3: the messages of a cycle come in the order of the rules (target,
    new low, listing count, price, market), each kind at most once, so a
    cycle emits at most five. *)
Theorem messages_in_rule_order target notify st summary :
  StronglySorted lt (map alert_rank (alerts_of target notify st summary))
  /\ (List.length (alerts_of target notify st summary) <= 5)%nat.
Proof.
  rewrite alerts_of_eq.
  assert (Ht : target_alerts target summary = []
               \/ exists a b, target_alerts target summary = [TargetHit a b]).
  { unfold target_alerts. split_cases; eauto. }
  assert (Hn : fst (new_low_alerts notify (all_time_low st) summary) = []
               \/ exists a b,
                    fst (new_low_alerts notify (all_time_low st) summary)
                    = [NewLow a b]).
  { unfold new_low_alerts. split_cases; eauto. }
  assert (Hl : listing_alerts (last_state st) summary = []
               \/ exists a, listing_alerts (last_state st) summary = [a]
                            /\ alert_rank a = 2%nat).
  { unfold listing_alerts. split_cases; eauto. }
  assert (Hp : price_alerts (last_state st) summary = []
               \/ exists a b c,
                    price_alerts (last_state st) summary
                    = [PriceChange a b c]).
  { unfold price_alerts. split_cases; eauto. }
  assert (Hm : forall moved,
             market_alerts moved summary = []
             \/ exists a b, market_alerts moved summary = [MarketUpdate a b]).
  { intros moved. unfold market_alerts. destruct moved; [|auto].
    destruct (all_prices summary); [auto|].
    destruct (lowest 10 _); eauto. }
  destruct Ht as [->|[? [? ->]]], Hn as [->|[? [? ->]]],
    Hl as [->|[? [-> Hr]]], Hp as [->|[? [? [? ->]]]],
    (Hm (movement_detected (last_state st) summary)) as [->|[? [? ->]]];
    simpl; rewrite ?Hr; split; try lia;
    repeat (constructor; try lia).
Qed.

(** X4: the effective low is absent exactly when the page price and the
    computed minimum are both absent; otherwise it is one of the two and
    neither of them is below it. *)
Theorem effective_low_is_lowest summary :
  (effective_low_of summary = None <->
     lowest_price summary = None /\ computed_min_price summary = None)
  /\ (forall e, effective_low_of summary = Some e ->
      (lowest_price summary = Some e \/ computed_min_price summary = Some e)
      /\ (forall v, lowest_price summary = Some v
                    \/ computed_min_price summary = Some v ->
                    (v <? e) = false)).
Proof.
  unfold effective_low_of.
  destruct (lowest_price summary) as [lp|],
    (computed_min_price summary) as [cm|]; cbn [not_none min_default].
  - split; [split; [discriminate|intros [? ?]; discriminate]|].
    intros e H. injection H as <-.
    destruct (py_min_spec lp [cm]) as [Hin Hlow].
    unfold py_min in Hin, Hlow. simpl in Hin, Hlow. split.
    + destruct Hin as [<-|[<-|[]]]; auto.
    + intros v [Hv|Hv]; injection Hv as <-; apply Hlow; simpl; auto.
  - split; [split; [discriminate|intros [? ?]; discriminate]|].
    intros e H. injection H as <-. split; [auto|].
    intros v [Hv|Hv]; [injection Hv as <-|discriminate].
    apply ltb_irrefl.
  - split; [split; [discriminate|intros [? ?]; discriminate]|].
    intros e H. injection H as <-. split; [auto|].
    intros v [Hv|Hv]; [discriminate|injection Hv as <-].
    apply ltb_irrefl.
  - split; [split; [auto|reflexivity]|]. intros e H. discriminate.
Qed.

(** * Further properties of the parser *)

Lemma sorted_id l : StronglySorted fle l -> sorted l = l.
Proof.
  induction 1 as [|x l Hs IH Hx]; [reflexivity|].
  simpl. rewrite IH. destruct l as [|y ys]; [reflexivity|].
  simpl. inversion Hx as [|? ? Hy _]; subst.
  now rewrite (fle_not_ltb _ _ Hy).
Qed.

Lemma firstn_sorted k l :
  StronglySorted fle l -> StronglySorted fle (firstn k l).
Proof.
  intros Hs. revert k. induction Hs as [|x l Hs IH Hx]; intros k.
  - rewrite firstn_nil. constructor.
  - destruct k as [|k]; [constructor|]. simpl. constructor; [apply IH|].
    rewrite Forall_forall in *. intros y Hy. apply Hx.
    rewrite <- (firstn_skipn k l). apply in_or_app. now left.
Qed.

Lemma insert_sorted_Permutation x l : Permutation (x :: l) (insert_sorted x l).
Proof.
  induction l as [|y l IH]; simpl; [reflexivity|].
  destruct (y <? x); [|reflexivity].
  rewrite perm_swap. now constructor.
Qed.

Lemma sorted_Permutation l : Permutation l (sorted l).
Proof.
  induction l as [|x l IH]; simpl; [constructor|].
  rewrite <- insert_sorted_Permutation. now constructor.
Qed.

Lemma row_prices_length rows :
  (List.length (row_prices rows) <= List.length (filter has_buy rows))%nat.
Proof.
  induction rows as [|tr rest IH]; simpl; [lia|].
  destruct (has_buy tr); simpl; [|exact IH].
  destruct (first_price _); simpl; lia.
Qed.

(** X5: sorting neither drops nor invents a price: the price list of the
    summary is a rearrangement of the prices taken from the rows, and there
    are at most as many as rows that pass the "Buy" test, one price per row
    at most. *)
Theorem all_prices_are_the_row_prices soup :
  exists s,
    parse_prices_summary soup = Returned s
    /\ Permutation (row_prices (select_table_tr false soup)) (all_prices s)
    /\ (List.length (all_prices s)
        <= List.length (filter has_buy (select_table_tr false soup)))%nat.
Proof.
  destruct (parse_prices_summary_eq soup) as [lowest [median ->]].
  eexists. split; [reflexivity|]. simpl.
  pose proof (row_prices_length (select_table_tr false soup)) as Hlen.
  destruct (row_prices (select_table_tr false soup)) as [|x l] eqn:E.
  - split; [constructor|simpl; lia].
  - split; [apply sorted_Permutation|].
    rewrite sorted_length. exact Hlen.
Qed.

Lemma nonneg_leb v : has_sign false (Prim2SF v) = true -> (0 <=? v) = true.
Proof.
  rewrite leb_key, fkey_zero. unfold fkey.
  destruct (Prim2SF v) as [[]|[]| |[] m e]; simpl; try discriminate;
    reflexivity.
Qed.

Lemma first_amount_nonneg parents v :
  first_amount parents = Some v -> has_sign false (Prim2SF v) = true.
Proof.
  induction parents as [|p rest IH]; simpl; [discriminate|].
  destruct (_parse_money _) as [w|] eqn:E; [|exact IH].
  intros H. injection H as <-. eapply _parse_money_nonneg, E.
Qed.

(** X6: the two amounts read from the summary boxes are never negative
    and never NaN: a lowest price or a median sale that is present
    satisfies [0 <= v], whether it came from a labelled region or from the
    fallback. *)
Theorem summary_amounts_not_negative soup :
  exists s,
    parse_prices_summary soup = Returned s
    /\ (forall v, lowest_price s = Some v -> (0 <=? v) = true)
    /\ (forall v, median_sale s = Some v -> (0 <=? v) = true).
Proof.
  unfold parse_prices_summary.
  assert (Hm : forall v,
             first_amount (label_parents median_sale_re soup) = Some v ->
             (0 <=? v) = true).
  { intros v H. eapply nonneg_leb, first_amount_nonneg, H. }
  destruct (first_amount (label_parents lowest_price_re soup)) as [v|] eqn:El.
  - eexists. split; [reflexivity|]. simpl. split; [|exact Hm].
    intros w H. injection H as <-.
    eapply nonneg_leb, first_amount_nonneg, El.
  - destruct (_MONEY_RE_search (get_text soup)) as [g|] eqn:Es.
    + destruct (search_is_float _ _ Es) as [v Hv]. rewrite Hv.
      eexists. split; [reflexivity|]. simpl. split; [|exact Hm].
      intros w H. injection H as <-. eapply nonneg_leb, py_float_nonneg, Hv.
    + eexists. split; [reflexivity|]. simpl. split; [discriminate|exact Hm].
Qed.

Lemma parse_summary_invariant_sorted soup :
  exists s,
    parse_prices_summary soup = Returned s
    /\ StronglySorted fle (all_prices s).
Proof.
  destruct (parse_prices_summary_eq soup) as [lowest [median ->]].
  eexists. split; [reflexivity|]. simpl.
  pose proof (row_prices_ordered (select_table_tr false soup)) as Ho.
  destruct (row_prices (select_table_tr false soup)) as [|x l] eqn:E.
  - constructor.
  - apply sorted_sorted, Ho.
Qed.

(** X7: on the summary of a parsed page the market message needs no
    sorting: its five prices are the first five of the list, in
    non-decreasing order, and its median is the element at index
    [count / 2] of the first ten as they stand, a price of the page. *)
Theorem market_of_parsed_page target notify st soup :
  exists s,
    parse_prices_summary soup = Returned s
    /\ forall lowest_5 median,
         In (MarketUpdate lowest_5 median) (alerts_of target notify st s) ->
         lowest_5 = firstn 5 (all_prices s)
         /\ StronglySorted fle lowest_5
         /\ median = nth (List.length (firstn 10 (all_prices s)) / 2)
                       (firstn 10 (all_prices s)) 0
         /\ In median (all_prices s).
Proof.
  destruct (parse_summary_invariant_sorted soup) as [s [Hs Hsorted]].
  exists s. split; [exact Hs|]. intros l5 med Hin.
  assert (Hf : In (MarketUpdate l5 med)
                 (filter is_market_update (alerts_of target notify st s)))
    by (apply filter_In; split; [exact Hin|reflexivity]).
  rewrite filter_market_update in Hf. unfold market_alerts in Hf.
  rewrite !lowest_firstn in Hf.
  destruct (movement_detected _ _); [|destruct Hf].
  pose proof (sorted_id _ (firstn_sorted 10 _ Hsorted)) as Hid.
  pose proof (firstn_sorted 5 _ Hsorted) as H5.
  assert (Hsub : forall p, In p (firstn 10 (all_prices s)) ->
                           In p (all_prices s)).
  { intros p Hp. rewrite <- (firstn_skipn 10 (all_prices s)).
    apply in_or_app. now left. }
  remember (firstn 10 (all_prices s)) as b10 eqn:E10.
  destruct (all_prices s) as [|x l]; [destruct Hf|].
  destruct b10 as [|y t]; [destruct Hf|].
  rewrite Hid in Hf.
  assert (Hidx : (List.length (y :: t) / 2 < List.length (y :: t))%nat)
    by (apply Nat.div_lt; [simpl; lia|lia]).
  pose proof (Hsub _ (nth_In (y :: t) 0 Hidx)) as Hmed.
  remember (firstn 5 (x :: l)) as first5 eqn:E5.
  remember (nth (List.length (y :: t) / 2) (y :: t) 0) as mid eqn:Emid.
  destruct Hf as [Hf|[]]. injection Hf as <- <-.
  split; [reflexivity|]. split; [exact H5|]. split; [reflexivity|].
  exact Hmed.
Qed.

(** ** Pages without a dollar sign *)

(** Induction over a document, with the property known of the contents of
    a tag. *)
Lemma node_induction (P : node -> Prop) :
  (forall s, P (NavigableString s)) ->
  (forall name cs, Forall P cs -> P (Tag name cs)) ->
  forall n, P n.
Proof.
  intros Hs Ht.
  fix IH 1. intros [s|name cs]; [apply Hs|].
  apply Ht. induction cs as [|c cs IHcs]; constructor; [apply IH|exact IHcs].
Qed.

Lemma has_dollar_app a b :
  has_dollar (a ++ b) = has_dollar a || has_dollar b.
Proof.
  induction a as [|c r IH]; simpl; [reflexivity|].
  now rewrite IH, orb_assoc.
Qed.

Lemma search_no_dollar s : has_dollar s = false -> _MONEY_RE_search s = None.
Proof.
  induction s as [|c r IH]; simpl; [reflexivity|].
  intros H. apply orb_false_elim in H. destruct H as [Hc Hr].
  rewrite Hc. apply IH, Hr.
Qed.

Lemma remove_commas_no_dollar s :
  has_dollar s = false -> has_dollar (remove_commas s) = false.
Proof.
  induction s as [|c r IH]; simpl; [reflexivity|].
  intros H. apply orb_false_elim in H. destruct H as [Hc Hr].
  destruct (code c =? 44)%N; simpl; [apply IH, Hr|].
  rewrite Hc. apply IH, Hr.
Qed.

Lemma _parse_money_no_dollar text :
  has_dollar text = false -> _parse_money text = None.
Proof.
  intros H. unfold _parse_money. destruct (is_empty text); [reflexivity|].
  now rewrite search_no_dollar by (apply remove_commas_no_dollar, H).
Qed.

Lemma lstrip_no_dollar s :
  has_dollar s = false -> has_dollar (lstrip s) = false.
Proof.
  induction s as [|c r IH]; simpl; [reflexivity|].
  intros H. destruct (is_space c); [|exact H].
  apply orb_false_elim in H. apply IH, H.
Qed.

Lemma rstrip_no_dollar s :
  has_dollar s = false -> has_dollar (rstrip s) = false.
Proof.
  induction s as [|c r IH]; simpl; [reflexivity|].
  intros H. apply orb_false_elim in H. destruct H as [Hc Hr].
  destruct (is_space c && is_empty (rstrip r)); simpl; [reflexivity|].
  rewrite Hc. apply IH, Hr.
Qed.

Lemma strip_no_dollar s :
  has_dollar s = false -> has_dollar (strip s) = false.
Proof.
  intros H. apply rstrip_no_dollar, lstrip_no_dollar, H.
Qed.

Lemma join_no_dollar parts :
  Forall (fun p => has_dollar p = false) parts ->
  has_dollar (join " " parts) = false.
Proof.
  induction 1 as [|p ps Hp Hps IH]; simpl; [reflexivity|].
  destruct ps as [|q qs]; [exact Hp|].
  rewrite has_dollar_app, Hp. simpl. exact IH.
Qed.

Lemma rev_run_no_dollar cur :
  forallb (fun c => negb (code c =? 36)%N) cur = true ->
  has_dollar (string_of_list_ascii (rev cur)) = false.
Proof.
  intros H.
  assert (G : forall l,
             forallb (fun c => negb (code c =? 36)%N) l = true ->
             has_dollar (string_of_list_ascii l) = false).
  { induction l as [|c l IH]; simpl; [reflexivity|].
    intros Hl. apply andb_prop in Hl. destruct Hl as [Hc Hl].
    apply negb_true_iff in Hc. rewrite Hc. apply IH, Hl. }
  apply G. rewrite forallb_forall in *. intros c Hc.
  apply H, in_rev, Hc.
Qed.

Lemma split_from_no_dollar s cur :
  forallb (fun c => negb (code c =? 36)%N) cur = true ->
  has_dollar s = false ->
  Forall (fun p => has_dollar p = false) (split_from cur s).
Proof.
  revert cur. induction s as [|c r IH]; intros cur Hcur Hs; simpl.
  - destruct cur; constructor; [|constructor].
    apply rev_run_no_dollar, Hcur.
  - simpl in Hs. apply orb_false_elim in Hs. destruct Hs as [Hc Hr].
    destruct (is_space c).
    + destruct cur.
      * apply IH; [reflexivity|exact Hr].
      * constructor; [apply rev_run_no_dollar, Hcur|].
        apply IH; [reflexivity|exact Hr].
    + apply IH; [|exact Hr]. simpl. now rewrite Hc, Hcur.
Qed.

Lemma get_text_no_dollar n : dollar_free n -> has_dollar (get_text n) = false.
Proof.
  intros H. unfold get_text. apply join_no_dollar.
  apply Forall_forall. intros t Ht. apply filter_In in Ht.
  destruct Ht as [Ht _]. apply in_map_iff in Ht.
  destruct Ht as [u [<- Hu]]. apply strip_no_dollar.
  unfold dollar_free in H. rewrite Forall_forall in H. apply H, Hu.
Qed.

Lemma dollar_free_contents name cs :
  dollar_free (Tag name cs) -> Forall dollar_free cs.
Proof.
  unfold dollar_free. simpl. intros H. apply Forall_forall. intros c Hc.
  apply Forall_forall. intros t Ht. rewrite Forall_forall in H.
  apply H, in_flat_map. eauto.
Qed.

(** The nodes the queries return lie inside the document. *)
Lemma label_parents_dollar_free re n :
  dollar_free n -> Forall dollar_free (label_parents re n).
Proof.
  induction n as [s|name cs IH] using node_induction; intros H;
    [constructor|].
  simpl. apply Forall_forall. intros p Hp. apply in_flat_map in Hp.
  destruct Hp as [c [Hc Hp]].
  pose proof (dollar_free_contents _ _ H) as Hcs.
  rewrite Forall_forall in IH, Hcs.
  destruct c as [s|nm cs'].
  - destruct (re s); [|destruct Hp]. destruct Hp as [<-|[]]. exact H.
  - specialize (IH _ Hc (Hcs _ Hc)). rewrite Forall_forall in IH.
    apply IH, Hp.
Qed.

Lemma find_all_dollar_free name n :
  dollar_free n -> Forall dollar_free (find_all name n).
Proof.
  induction n as [s|nm cs IH] using node_induction; intros H;
    [constructor|].
  simpl. apply Forall_forall. intros p Hp. apply in_flat_map in Hp.
  destruct Hp as [c [Hc Hp]].
  pose proof (dollar_free_contents _ _ H) as Hcs.
  rewrite Forall_forall in IH, Hcs.
  destruct c as [s|nm' cs']; [destruct Hp|].
  apply in_app_or in Hp. destruct Hp as [Hp|Hp].
  - destruct (nm' =? name)%string; [|destruct Hp].
    destruct Hp as [<-|[]]. apply Hcs, Hc.
  - specialize (IH _ Hc (Hcs _ Hc)). rewrite Forall_forall in IH.
    apply IH, Hp.
Qed.

Lemma select_table_tr_dollar_free inside n :
  dollar_free n -> Forall dollar_free (select_table_tr inside n).
Proof.
  revert inside.
  induction n as [s|nm cs IH] using node_induction; intros inside H;
    [constructor|].
  simpl. apply Forall_app. split.
  - destruct (inside && (nm =? "tr")%string); constructor;
      [exact H|constructor].
  - pose proof (dollar_free_contents _ _ H) as Hcs.
    apply Forall_forall. intros p Hp. apply in_flat_map in Hp.
    destruct Hp as [c [Hc Hp]]. rewrite Forall_forall in IH, Hcs.
    specialize (IH _ Hc (inside || (nm =? "table")%string) (Hcs _ Hc)).
    rewrite Forall_forall in IH. apply IH, Hp.
Qed.

Lemma first_amount_no_dollar parents :
  Forall dollar_free parents -> first_amount parents = None.
Proof.
  induction 1 as [|p ps Hp Hps IH]; simpl; [reflexivity|].
  rewrite _parse_money_no_dollar; [exact IH|].
  apply join_no_dollar, split_from_no_dollar; [reflexivity|].
  apply get_text_no_dollar, Hp.
Qed.

Lemma first_price_no_dollar td_texts :
  Forall (fun t => has_dollar t = false) td_texts ->
  first_price td_texts = None.
Proof.
  induction 1 as [|t ts Ht Hts IH]; simpl; [reflexivity|].
  now rewrite (_parse_money_no_dollar _ Ht).
Qed.

Lemma row_prices_no_dollar rows :
  Forall dollar_free rows -> row_prices rows = [].
Proof.
  induction 1 as [|tr rest Htr Hrest IH]; simpl; [reflexivity|].
  destruct (has_buy tr); simpl; [|exact IH].
  rewrite first_price_no_dollar; [exact IH|].
  apply Forall_forall. intros t Ht. apply in_map_iff in Ht.
  destruct Ht as [td [<- Htd]]. apply get_text_no_dollar.
  pose proof (find_all_dollar_free "td" tr Htr) as H.
  rewrite Forall_forall in H. apply H, Htd.
Qed.

(** X8: a page with no dollar sign in any of its text nodes has no
    amounts: the parser returns the summary with every field absent and an
    empty price list, whatever labels, tables and "Buy" rows the page
    has. *)
Theorem page_without_dollar_is_empty soup :
  dollar_free soup ->
  parse_prices_summary soup =
    Returned {| lowest_price := None;
                median_sale := None;
                computed_min_price := None;
                num_listings := None;
                all_prices := [] |}.
Proof.
  intros H. unfold parse_prices_summary.
  rewrite !first_amount_no_dollar by (apply label_parents_dollar_free, H).
  rewrite search_no_dollar by (apply get_text_no_dollar, H).
  rewrite row_prices_no_dollar by (apply select_table_tr_dollar_free, H).
  reflexivity.
Qed.

(** * The history *)

Example read_last_state_run :
  read_last_state py_float py_int
    (Rows [ {| col_lowest_price := Some "abc"%string;
               col_num_listings := Some "x"%string;
               col_all_prices := None |};
            {| col_lowest_price := Some "120.0"%string;
               col_num_listings := Some "3"%string;
               col_all_prices := Some "[100.0, 130.0, 150.0]"%string |} ])
  = Some {| last_lowest_price := Some 120;
            last_num_listings := Some 3%Z;
            last_all_prices := [100; 130; 150] |}.
Proof. reflexivity. Qed.

Section LastStateFacts.

Variable builtin_float : string -> option float.
Variable builtin_int : string -> option Z.

Lemma last_some_app (rows : list csv_record) r :
  last (map Some (rows ++ [r])) None = Some r.
Proof.
  induction rows as [|x rows IH]; [reflexivity|].
  simpl. rewrite IH.
  destruct (map Some (rows ++ [r])) eqn:E; [|reflexivity].
  destruct rows; discriminate.
Qed.

(** X9: [read_last_state] returns the empty state for a missing file, for
    a file that cannot be read and for a file without rows; otherwise only
    the last row counts: the rows before it, well formed or not, change
    nothing. *)
Theorem read_last_state_last_row :
  read_last_state builtin_float builtin_int Absent = None
  /\ (forall rows,
      read_last_state builtin_float builtin_int (Failing rows) = None)
  /\ read_last_state builtin_float builtin_int (Rows []) = None
  /\ (forall rows r,
      read_last_state builtin_float builtin_int (Rows (rows ++ [r]))
      = read_last_state builtin_float builtin_int (Rows [r])).
Proof.
  repeat split. intros rows r. unfold read_last_state.
  rewrite last_some_app. reflexivity.
Qed.

Lemma floats_of_raised pieces :
  (exists p, In p pieces /\ builtin_float (strip p) = None) ->
  floats_of builtin_float pieces = Raised.
Proof.
  induction pieces as [|q rest IH]; intros [p [Hin Hp]]; [destruct Hin|].
  simpl. destruct Hin as [->|Hin].
  - now rewrite Hp.
  - destruct (builtin_float (strip q)); [|reflexivity].
    rewrite IH by eauto. reflexivity.
Qed.

(** X10: the two kinds of damage in the last row are treated differently.
    A price list with a piece that is no float is read as an empty list and
    the rest of the row is kept; a lowest price or a listing count that
    does not convert loses the whole state. *)
Theorem read_last_state_damage rows r :
  (forall s p,
      col_all_prices r = Some s ->
      In p (split_comma (strip_brackets s)) ->
      builtin_float (strip p) = None ->
      read_last_state builtin_float builtin_int (Rows (rows ++ [r]))
      = read_last_state builtin_float builtin_int
          (Rows [ {| col_lowest_price := col_lowest_price r;
                     col_num_listings := col_num_listings r;
                     col_all_prices := None |} ]))
  /\ (forall s,
      col_lowest_price r = Some s -> is_empty s = false ->
      builtin_float s = None ->
      read_last_state builtin_float builtin_int (Rows (rows ++ [r])) = None)
  /\ (forall s,
      col_num_listings r = Some s -> is_empty s = false ->
      builtin_int s = None ->
      read_last_state builtin_float builtin_int (Rows (rows ++ [r])) = None).
Proof.
  split; [|split].
  - intros s p Hs Hin Hp. unfold read_last_state.
    rewrite last_some_app. simpl.
    assert (E : parse_all_prices builtin_float (col_all_prices r) = []).
    { rewrite Hs. unfold parse_all_prices.
      destruct (is_empty s || (s =? "[]")%string); [reflexivity|].
      destruct (is_empty (strip_brackets s)); [reflexivity|].
      rewrite floats_of_raised by eauto. reflexivity. }
    rewrite E. reflexivity.
  - intros s Hs He Hf. unfold read_last_state. rewrite last_some_app.
    rewrite Hs. simpl. rewrite He, Hf. reflexivity.
  - intros s Hs He Hf. unfold read_last_state. rewrite last_some_app.
    rewrite Hs. simpl. rewrite He, Hf. simpl.
    destruct (if field_truthy (col_lowest_price r) then _ else _);
      reflexivity.
Qed.

End LastStateFacts.

(** ** Writing a row and reading it back *)













Section RoundTrip.

Variable py_repr : float -> string.
Variable builtin_float : string -> option float.
Variable builtin_int : string -> option Z.











End RoundTrip.


(** ** The lowest price of a history that grows *)

Section GrowingHistory.

Variable builtin_float : string -> option float.






End GrowingHistory.


Lemma page_without_dollar_is_empty_witness :
  parse_prices_summary page_sold_out =
    Returned {| lowest_price := None;
                median_sale := None;
                computed_min_price := None;
                num_listings := None;
                all_prices := [] |}.
Proof.
  apply (page_without_dollar_is_empty page_sold_out).
  unfold dollar_free. simpl. repeat constructor.
Defined.


(** ** The loop *)

Lemma ltb_trans x y z :
  (x <? y) = true -> (y <? z) = true -> (x <? z) = true.
Proof.
  rewrite !ltb_key.
  destruct (fkey x), (fkey y), (fkey z); intros; try discriminate;
    key_arith.
Qed.

(** The low the new-low rule leaves is the low it found or below it. *)
Lemma new_low_not_above notify summary l :
  exists l',
    snd (new_low_alerts notify (Some l) summary) = Some l'
    /\ (l' = l \/ (l' <? l) = true).
Proof.
  unfold new_low_alerts.
  destruct notify; [|exists l; split; [reflexivity|now left]].
  destruct (effective_low_of summary) as [e|];
    [|exists l; split; [reflexivity|now left]].
  destruct (e <? l - tolerance) eqn:E; simpl.
  - exists e. split; [reflexivity|]. right.
    apply below_tolerance_below, E.
  - exists l. split; [reflexivity|now left].
Qed.

(** Appending line after line, written out. *)
Lemma append_all d rows :
  fold_left append_history rows d
  = match d with
    | Some lines => Some (lines ++ rows)
    | None =>
        match rows with
        | [] => None
        | _ :: _ => Some (fieldnames :: rows)
        end
    end.
Proof.
  revert d. induction rows as [|row rows IH]; intros d; cbn [fold_left].
  - destruct d; [now rewrite app_nil_r|reflexivity].
  - rewrite IH. destruct d as [lines|]; cbn [append_history].
    + now rewrite <- app_assoc.
    + reflexivity.
Qed.

Section LoopProperties.

Variable py_repr : float -> string.
Variable event_url : string.
Variable target_price : float.
Variable notify_on_new_low : bool.

Lemma run_cycle_failed p input :
  succeeds input = false ->
  run_cycle py_repr event_url target_price notify_on_new_low p input = p.
Proof.
  destruct input as [|soup now ok]; [reflexivity|]. simpl. intros ->.
  now destruct (parse_prices_summary soup).
Qed.

(** A cycle that gets through, in terms of its summary. *)
Lemma run_cycle_done p soup now :
  exists summary,
    parse_prices_summary soup = Returned summary
    /\ run_cycle py_repr event_url target_price notify_on_new_low p
         (Fetched soup now true)
       = {| memory :=
              state_after target_price notify_on_new_low (memory p) summary;
            file :=
              append_history (file p)
                (history_line py_repr now event_url summary);
            sent :=
              match alerts_of target_price notify_on_new_low (memory p)
                      summary with
              | [] => sent p
              | _ :: _ =>
                  sent p
                    ++ [alerts_of target_price notify_on_new_low (memory p)
                          summary]
              end |}.
Proof.
  destruct (parse_returns soup) as [summary E]. exists summary.
  split; [exact E|]. unfold run_cycle, alerts_of, state_after.
  rewrite E.
  now destruct (detect target_price notify_on_new_low (memory p) summary).
Qed.

Lemma run_cycle_cases p input :
  (succeeds input = false
   /\ run_cycle py_repr event_url target_price notify_on_new_low p input = p)
  \/ (succeeds input = true
      /\ exists soup now summary,
           input = Fetched soup now true
           /\ parse_prices_summary soup = Returned summary
           /\ run_cycle py_repr event_url target_price notify_on_new_low p
                input
              = {| memory :=
                     state_after target_price notify_on_new_low (memory p)
                       summary;
                   file :=
                     append_history (file p)
                       (history_line py_repr now event_url summary);
                   sent :=
                     match alerts_of target_price notify_on_new_low
                             (memory p) summary with
                     | [] => sent p
                     | _ :: _ =>
                         sent p
                           ++ [alerts_of target_price notify_on_new_low
                                 (memory p) summary]
                     end |}).
Proof.
  destruct (succeeds input) eqn:E.
  - right. split; [reflexivity|].
    destruct input as [|soup now ok]; [discriminate|]. simpl in E. subst ok.
    destruct (run_cycle_done p soup now) as [summary [Hs Hr]].
    exists soup, now, summary. now repeat split.
  - left. split; [reflexivity|]. now apply run_cycle_failed.
Qed.

(** X13: over a whole run the all-time low never rises.  Once it is known,
    whatever the pages, the failures and the mode, the low in memory at the
    end of the run is the low of the start or a float strictly below
    it. *)
Theorem low_never_rises_over_run run_once inputs p l :
  all_time_low (memory p) = Some l ->
  exists l',
    all_time_low
      (memory
         (main_loop py_repr event_url target_price notify_on_new_low
            run_once inputs p))
    = Some l'
    /\ (l' = l \/ (l' <? l) = true).
Proof.
  assert (Hstep : forall q input m,
            all_time_low (memory q) = Some m ->
            exists m',
              all_time_low
                (memory
                   (run_cycle py_repr event_url target_price
                      notify_on_new_low q input))
              = Some m'
              /\ (m' = m \/ (m' <? m) = true)).
  { intros q input m Hm.
    destruct (run_cycle_cases q input)
      as [[_ ->]|[_ [soup [now [summary [_ [_ ->]]]]]]].
    - exists m. split; [exact Hm|now left].
    - cbn [memory]. rewrite state_after_eq. cbn [all_time_low].
      rewrite Hm. apply new_low_not_above. }
  revert p l. induction inputs as [|input rest IH]; intros p l Hl.
  - exists l. split; [exact Hl|now left].
  - cbn [main_loop]. cbv zeta.
    destruct (Hstep p input l Hl) as [m [Hm Hml]].
    destruct run_once.
    + exists m. now split.
    + destruct (IH _ m Hm) as [l' [Hl' Hlm]].
      exists l'. split; [exact Hl'|].
      destruct Hlm as [->|Hlm]; [exact Hml|].
      destruct Hml as [->|Hml]; right; [exact Hlm|].
      exact (ltb_trans _ _ _ Hlm Hml).
Qed.

(** Single-pass mode is the run over the first cycle. *)
Lemma main_loop_attempted run_once inputs p :
  main_loop py_repr event_url target_price notify_on_new_low run_once
    inputs p
  = main_loop py_repr event_url target_price notify_on_new_low false
      (attempted run_once inputs) p.
Proof.
  destruct run_once; [|reflexivity].
  destruct inputs as [|input rest]; reflexivity.
Qed.

Lemma main_loop_filter inputs p :
  main_loop py_repr event_url target_price notify_on_new_low false inputs p
  = main_loop py_repr event_url target_price notify_on_new_low false
      (filter succeeds inputs) p.
Proof.
  revert p. induction inputs as [|input rest IH]; intros p; [reflexivity|].
  cbn [main_loop filter]. cbv zeta.
  destruct (succeeds input) eqn:E.
  - cbn [main_loop]. apply IH.
  - rewrite (run_cycle_failed p input E). apply IH.
Qed.

(** X14: a cycle that fails leaves no trace.  A run ends in the process that
    a continuous run over only the cycles that got through ends in: a
    fetch that raised, or a history file that could not be opened, changes
    neither the state nor the file nor what is sent, in that cycle or in a
    later one; and single-pass mode is the run over the first cycle. *)
Theorem failed_cycles_leave_no_trace run_once inputs p :
  main_loop py_repr event_url target_price notify_on_new_low run_once
    inputs p
  = main_loop py_repr event_url target_price notify_on_new_low false
      (filter succeeds (attempted run_once inputs)) p.
Proof.
  rewrite main_loop_attempted. apply main_loop_filter.
Qed.

(** X15: a run only adds.  The history file at the end holds the lines of
    the start followed by one row for each cycle that got through, and
    nothing for the others, with the header before the first row when
    there was no file; what was handed to the notifier is what had been
    handed to it followed by at most one message list for each such cycle,
    none of them empty. *)
Theorem run_only_adds run_once inputs p :
  let final :=
    main_loop py_repr event_url target_price notify_on_new_low run_once
      inputs p in
  exists rows batches,
    file final
    = match file p with
      | Some lines => Some (lines ++ rows)
      | None =>
          match rows with
          | [] => None
          | _ :: _ => Some (fieldnames :: rows)
          end
      end
    /\ sent final = sent p ++ batches
    /\ List.length rows
       = List.length (filter succeeds (attempted run_once inputs))
    /\ (List.length batches <= List.length rows)%nat
    /\ Forall (fun batch => batch <> []) batches.
Proof.
  intros final. unfold final. clear final. rewrite main_loop_attempted.
  generalize (attempted run_once inputs) as l. intros l.
  enough (exists rows batches,
             file (main_loop py_repr event_url target_price
                     notify_on_new_low false l p)
             = fold_left append_history rows (file p)
             /\ sent (main_loop py_repr event_url target_price
                        notify_on_new_low false l p)
                = sent p ++ batches
             /\ List.length rows = List.length (filter succeeds l)
             /\ (List.length batches <= List.length rows)%nat
             /\ Forall (fun batch => batch <> []) batches) as H.
  { destruct H as [rows [batches [Hf H]]]. exists rows, batches.
    rewrite Hf, append_all. split; [reflexivity|exact H]. }
  revert p.
  induction l as [|input rest IH]; intros p.
  - exists [], []. rewrite !app_nil_r. repeat split; constructor.
  - cbn [main_loop filter]. cbv zeta.
    destruct (succeeds input) eqn:E.
    + destruct (run_cycle_cases p input)
        as [[E' _]|[_ [soup [now [summary [_ [_ Hr]]]]]]]; [congruence|].
      destruct (IH (run_cycle py_repr event_url target_price
                      notify_on_new_low p input))
        as [rows [batches [Hf [Hs [Hn [Hb Hne]]]]]].
      rewrite Hf, Hs, Hr. cbn [file sent].
      exists (history_line py_repr now event_url summary :: rows).
      destruct (alerts_of target_price notify_on_new_low (memory p) summary)
        as [|a msgs] eqn:Ea.
      * exists batches. cbn [List.length fold_left].
        repeat split; auto; simpl; lia.
      * exists ((a :: msgs) :: batches). rewrite <- !app_assoc.
        cbn [List.length fold_left].
        repeat split; auto; try (simpl; lia).
        constructor; [discriminate|exact Hne].
    + rewrite (run_cycle_failed p input E).
      destruct (IH p) as [rows [batches H]]. exists rows, batches. exact H.
Qed.

End LoopProperties.

Lemma low_never_rises_over_run_witness :
  exists l',
    all_time_low
      (memory
         (main_loop sample_repr "https://example.com/event" 0 true false
            [FetchFails;
             Fetched page_three_rows "2025-09-01T12:00:00-04:00" true;
             Fetched page_without_buy "2025-09-01T12:05:00-04:00" true]
            {| memory := {| all_time_low := Some 110; last_state := None |};
               file := None;
               sent := [] |}))
    = Some l'
    /\ (l' = 110 \/ (l' <? 110) = true).
Proof.
  apply (low_never_rises_over_run sample_repr "https://example.com/event"
           0 true false
           [FetchFails;
            Fetched page_three_rows "2025-09-01T12:00:00-04:00" true;
            Fetched page_without_buy "2025-09-01T12:05:00-04:00" true]
           {| memory := {| all_time_low := Some 110; last_state := None |};
              file := None;
              sent := [] |}).
  reflexivity.
Defined.

Section DiskAgreement.

Variable py_repr : float -> string.
Variable builtin_float : string -> option float.
Variable builtin_int : string -> option Z.
Variable event_url : string.
Variable target_price : float.
Variable notify_on_new_low : bool.


End DiskAgreement.


(** ** Amounts in messages *)

(** The guard of [format_usd] lets through the zeros and the finite
    floats. *)
Lemma finite_guard x :
  is_nan x || is_infinity x =
    match Prim2SF x with
    | S754_nan | S754_infinity _ => true
    | _ => false
    end.
Proof.
  unfold is_nan, is_infinity. rewrite !eqb_key. unfold fkey.
  rewrite abs_spec.
  change (Prim2SF infinity) with (S754_infinity false).
  destruct (Prim2SF x) as [[]|[]| |[] m e]; simpl;
    rewrite ?Z.compare_refl, ?Pos.compare_refl; reflexivity.
Qed.

Lemma digit_char_spec d :
  (d < 10)%N ->
  is_digit (digit_char d) = true /\ digit_value (digit_char d) = d.
Proof.
  intros H.
  assert (Hd : (d = 0 \/ d = 1 \/ d = 2 \/ d = 3 \/ d = 4 \/ d = 5
                \/ d = 6 \/ d = 7 \/ d = 8 \/ d = 9)%N) by lia.
  repeat (destruct Hd as [->|Hd]; [split; reflexivity|]).
  subst d. split; reflexivity.
Qed.

Lemma two_digits_spec n acc :
  (n < 100)%N ->
  all_digits (two_digits n) = true
  /\ digits_value acc (two_digits n) = (100 * acc + n)%N.
Proof.
  intros H. unfold two_digits.
  assert (H1 : (n / 10 < 10)%N) by (apply N.Div0.div_lt_upper_bound; lia).
  assert (H2 : (n mod 10 < 10)%N) by (apply N.mod_lt; lia).
  destruct (digit_char_spec _ H1) as [D1 V1].
  destruct (digit_char_spec _ H2) as [D2 V2].
  cbn [all_digits digits_value]. rewrite D1, D2, V1, V2.
  split; [reflexivity|].
  pose proof (N.div_mod n 10). lia.
Qed.

Lemma uint_digits_acc d acc :
  digits_value (Npos acc) (DecimalString.NilEmpty.string_of_uint d)
  = Npos (Pos.of_uint_acc d acc).
Proof.
  revert acc. induction d; intros acc;
    cbn [DecimalString.NilEmpty.string_of_uint digits_value Pos.of_uint_acc];
    [reflexivity|..]; rewrite <- IHd; f_equal;
    unfold digit_value, code; cbn [N_of_ascii N_of_digits]; lia.
Qed.

Lemma uint_digits d :
  digits_value 0 (DecimalString.NilEmpty.string_of_uint d) = Pos.of_uint d.
Proof.
  induction d;
    cbn [DecimalString.NilEmpty.string_of_uint digits_value Pos.of_uint];
    [reflexivity|exact IHd|..]; rewrite <- uint_digits_acc; f_equal.
Qed.

Lemma uint_all_digits d :
  all_digits (DecimalString.NilEmpty.string_of_uint d) = true.
Proof. induction d; simpl; auto. Qed.

(** [str] of a natural number writes it in digits. *)
Lemma str_nat_spec n :
  all_digits (str_nat n) = true
  /\ is_empty (str_nat n) = false
  /\ digits_value 0 (str_nat n) = n.
Proof.
  unfold str_nat, DecimalString.NilZero.string_of_uint.
  pose proof (DecimalN.Unsigned.of_to n) as Hn. unfold N.of_uint in Hn.
  destruct (N.to_uint n) as [|d|d|d|d|d|d|d|d|d|d] eqn:E.
  1: { repeat split. simpl in Hn. now subst n. }
  all: refine (conj (uint_all_digits _) (conj eq_refl _));
    rewrite uint_digits; exact Hn.
Qed.

Lemma digit_class c :
  is_digit c = true ->
  (code c =? 44)%N = false /\ (code c =? 36)%N = false
  /\ is_space c = false.
Proof.
  unfold is_digit, is_space. intros H. apply andb_prop in H.
  destruct H as [H1 H2]. apply N.leb_le in H1, H2.
  repeat split.
  - apply N.eqb_neq. lia.
  - apply N.eqb_neq. lia.
  - repeat match goal with
           | |- context [(?a <=? ?b)%N] =>
               destruct (N.leb_spec a b); try lia
           | |- context [(?a =? ?b)%N] =>
               destruct (N.eqb_spec a b); try lia
           end; reflexivity.
Qed.

Lemma remove_commas_app a b :
  remove_commas (a ++ b) = (remove_commas a ++ remove_commas b)%string.
Proof.
  induction a as [|c r IH]; simpl; [reflexivity|].
  destruct ((code c =? 44)%N); simpl; now rewrite IH.
Qed.

Lemma remove_commas_digits s : all_digits s = true -> remove_commas s = s.
Proof.
  induction s as [|c r IH]; simpl; [reflexivity|]. intros H.
  apply andb_prop in H. destruct H as [Hc Hr].
  destruct (digit_class c Hc) as [-> _]. now rewrite IH.
Qed.

(** The separators are all [replace] takes out of a grouped number. *)
Lemma remove_commas_group left s :
  all_digits s = true -> remove_commas (group_from left s) = s.
Proof.
  revert left. induction s as [|c r IH]; intros left;
    cbn [group_from all_digits]; [reflexivity|]. intros H.
  apply andb_prop in H. destruct H as [Hc Hr].
  destruct (digit_class c Hc) as [Hcomma _]. cbv zeta.
  destruct ((1 <? left)%nat && (Nat.modulo (left - 1) 3 =? 0)%nat);
    cbn [remove_commas]; rewrite Hcomma.
  - change (code "," =? 44)%N with true. cbv iota. now rewrite IH.
  - now rewrite IH.
Qed.

Lemma digits_no_dollar s : all_digits s = true -> has_dollar s = false.
Proof.
  induction s as [|c r IH]; simpl; [reflexivity|]. intros H.
  apply andb_prop in H. destruct H as [Hc Hr].
  destruct (digit_class c Hc) as [_ [-> _]]. now apply IH.
Qed.

(** What the parser reads from a written amount without its sign. *)
Lemma parse_money_amount ds n :
  all_digits ds = true -> is_empty ds = false -> (n < 100)%N ->
  _parse_money ("$" ++ group_thousands ds ++ "." ++ two_digits n)
  = Some (float_of_decimal (100 * digits_value 0 ds + n) 2).
Proof.
  intros Hd He Hn. destruct (two_digits_spec n (digits_value 0 ds) Hn)
    as [Hall Hval].
  unfold _parse_money. cbn [append is_empty remove_commas].
  change (code "$" =? 44)%N with false. cbv iota.
  rewrite remove_commas_app. unfold group_thousands.
  rewrite remove_commas_group by exact Hd.
  change ("." ++ two_digits n)%string with (String "." (two_digits n)).
  cbn [remove_commas]. change (code "." =? 44)%N with false. cbv iota.
  rewrite (remove_commas_digits _ Hall).
  cbn [_MONEY_RE_search]. change (code "$" =? 36)%N with true. cbv iota.
  assert (Hl : lstrip (ds ++ String "." (two_digits n))
               = (ds ++ String "." (two_digits n))%string).
  { destruct ds as [|c r]; [discriminate|]. simpl in Hd.
    apply andb_prop in Hd. destruct Hd as [Hc _].
    destruct (digit_class c Hc) as [_ [_ Hs]]. simpl. now rewrite Hs. }
  assert (Ht : take_digits (ds ++ String "." (two_digits n))
               = (ds, String "." (two_digits n)))
    by (apply take_digits_app; [exact Hd|reflexivity]).
  assert (Hf : fraction_part (String "." (two_digits n))
               = String "." (two_digits n)).
  { unfold two_digits in *. cbn [all_digits] in Hall.
    apply andb_prop in Hall. destruct Hall as [H1 H2].
    apply andb_prop in H2. destruct H2 as [H2 _].
    cbn [fraction_part]. change (code "." =? 46)%N with true.
    now rewrite H1, H2. }
  unfold money_match_here. rewrite Hl, Ht, He, Hf.
  unfold py_float. rewrite Ht, He.
  change (code "." =? 46)%N with true. rewrite Hall. cbn [andb].
  now rewrite Hval.
Qed.

(** A written amount with its sign is not read. *)
Lemma parse_money_negative ds n :
  all_digits ds = true -> (n < 100)%N ->
  _parse_money ("$" ++ "-" ++ group_thousands ds ++ "." ++ two_digits n)
  = None.
Proof.
  intros Hd Hn. destruct (two_digits_spec n 0 Hn) as [Hall _].
  unfold _parse_money. cbn [append is_empty remove_commas].
  change (code "$" =? 44)%N with false.
  change (code "-" =? 44)%N with false. cbv iota.
  rewrite remove_commas_app. unfold group_thousands.
  rewrite remove_commas_group by exact Hd.
  change ("." ++ two_digits n)%string with (String "." (two_digits n)).
  cbn [remove_commas]. change (code "." =? 44)%N with false. cbv iota.
  rewrite (remove_commas_digits _ Hall).
  cbn [_MONEY_RE_search]. change (code "$" =? 36)%N with true. cbv iota.
  unfold money_match_here. cbn [lstrip].
  change (is_space "-") with false. cbv iota. cbn [take_digits].
  change (is_digit "-") with false. cbv iota. cbn [is_empty].
  change (code "-" =? 36)%N with false. cbv iota.
  rewrite search_no_dollar; [reflexivity|].
  rewrite has_dollar_app, (digits_no_dollar _ Hd). cbn [orb has_dollar].
  change (code "." =? 36)%N with false. cbn [orb].
  apply digits_no_dollar, Hall.
Qed.

Lemma cents_split c : (c mod 100 < 100)%N /\ (100 * (c / 100) + c mod 100 = c)%N.
Proof.
  split; [apply N.mod_lt; lia|]. pose proof (N.div_mod c 100). lia.
Qed.

(** X17: what the parser reads from an amount the monitor writes.  From
    [format_usd] of a float that is finite and has no sign, [_parse_money]
    reads the float nearest to the printed hundredths over 100, thousands
    separators or not; from any other text of [format_usd] (["N/A"] for a
    missing, infinite or NaN value, a text with a minus sign for a negative
    float or the negative zero) it reads nothing. *)
Theorem parse_money_of_format_usd v :
  _parse_money (format_usd v) =
    match v with
    | Some x =>
        if is_nan x || is_infinity x || sign_bit x then None
        else Some (float_of_decimal (cents_of x) 2)
    | None => None
    end.
Proof.
  destruct v as [x|]; [|reflexivity].
  unfold format_usd. rewrite finite_guard.
  unfold format_comma_2f, sign_bit.
  destruct (str_nat_spec (cents_of x / 100)) as [Hd [He Hv]].
  destruct (cents_split (cents_of x)) as [Hn Hc].
  destruct (Prim2SF x) as [s|s| |s m e] eqn:E; try reflexivity;
    cbn [orb]; destruct s.
  - apply parse_money_negative; assumption.
  - change ("" ++ ?a)%string with a.
    rewrite parse_money_amount by assumption. now rewrite Hv, Hc.
  - apply parse_money_negative; assumption.
  - change ("" ++ ?a)%string with a.
    rewrite parse_money_amount by assumption. now rewrite Hv, Hc.
Qed.

Lemma round_half_even_spec n d :
  (0 <= n)%Z -> (0 < d)%Z ->
  (0 <= round_half_even n d)%Z
  /\ (Z.abs (2 * n - 2 * round_half_even n d * d) <= d)%Z.
Proof.
  intros Hn Hd. unfold round_half_even.
  pose proof (Z.div_mod n d ltac:(lia)) as E.
  pose proof (Z.mod_pos_bound n d Hd) as Hr.
  pose proof (Z.div_pos n d Hn Hd) as Hq.
  set (q := (n / d)%Z) in *. set (r := (n mod d)%Z) in *.
  destruct (Z.compare_spec (2 * r) d) as [H|H|H];
    [destruct (Z.even q)| |]; split; nia.
Qed.

(** X18: the amount in a message is the float to the nearest cent.  For a
    finite float [m * 2^e] with either sign, [format_usd] prints a dollar
    sign, the minus sign if the float has one, and a number of hundredths
    [c], grouped by thousands with two digits after the point, that
    differs from 100 times the exact absolute value by at most one
    half. *)
Theorem format_usd_within_half_cent x s m e :
  Prim2SF x = S754_finite s m e ->
  exists c : N,
    format_usd (Some x)
    = ("$" ++ (if s then "-" else "")
         ++ group_thousands (str_nat (c / 100))
         ++ "." ++ two_digits (c mod 100))%string
    /\ (Z.abs (2 * (100 * Zpos m * 2 ^ Z.max 0 e)
               - 2 * Z.of_N c * 2 ^ Z.max 0 (- e))
        <= 2 ^ Z.max 0 (- e))%Z.
Proof.
  intros H. exists (cents_of x). split.
  - unfold format_usd, format_comma_2f, sign_bit.
    rewrite finite_guard, H. reflexivity.
  - unfold cents_of, hundredths. rewrite H.
    destruct (Z.leb_spec 0 e) as [He|He].
    + rewrite (Z.max_r 0 e), (Z.max_l 0 (- e)) by lia.
      assert (0 < 2 ^ e)%Z by (apply Z.pow_pos_nonneg; lia).
      rewrite Z2N.id by nia. change (2 ^ 0)%Z with 1%Z. lia.
    + rewrite (Z.max_l 0 e), (Z.max_r 0 (- e)) by lia.
      assert (Hd : (0 < 2 ^ (- e))%Z) by (apply Z.pow_pos_nonneg; lia).
      destruct (round_half_even_spec (100 * Zpos m) (2 ^ (- e))
                  ltac:(lia) Hd) as [H0 Hb].
      rewrite Z2N.id by exact H0. change (2 ^ 0)%Z with 1%Z.
      rewrite Z.mul_1_r. exact Hb.
Qed.

Lemma format_usd_within_half_cent_witness :
  exists c : N,
    format_usd (Some 0.125)
    = ("$" ++ ""
         ++ group_thousands (str_nat (c / 100))
         ++ "." ++ two_digits (c mod 100))%string
    /\ (Z.abs (2 * (100 * 4503599627370496 * 2 ^ Z.max 0 (-55))
               - 2 * Z.of_N c * 2 ^ Z.max 0 (- (-55)))
        <= 2 ^ Z.max 0 (- (-55)))%Z.
Proof.
  apply (format_usd_within_half_cent 0.125 false 4503599627370496 (-55)).
  reflexivity.
Defined.

(** ** The notifier *)

Lemma is_nan_spec x :
  is_nan x = match Prim2SF x with S754_nan => true | _ => false end.
Proof.
  unfold is_nan. rewrite eqb_key. unfold fkey.
  destruct (Prim2SF x) as [[]|[]| |[] m e]; simpl;
    rewrite ?Z.compare_refl, ?Pos.compare_refl; reflexivity.
Qed.

Lemma remove_commas_amount (s : bool) ds n :
  all_digits ds = true -> (n < 100)%N ->
  remove_commas
    ("$" ++ (if s then "-" else "") ++ group_thousands ds ++ "."
       ++ two_digits n)
  = ("$" ++ (if s then "-" else "") ++ ds ++ "." ++ two_digits n)%string.
Proof.
  intros Hd Hn. destruct (two_digits_spec n 0 Hn) as [Hall _].
  rewrite !remove_commas_app. unfold group_thousands.
  rewrite remove_commas_group by exact Hd.
  rewrite (remove_commas_digits _ Hall). now destruct s.
Qed.

(** X19: the amounts of the Slack context block against those of the
    message.  For a finite float the context block shows, after its dollar
    sign, the amount [format_usd] puts in the message with the thousands
    separators left out; for an infinite or NaN value, where the message
    says ["N/A"], the context block says ["$inf"], ["$-inf"] or
    ["$nan"]. *)
Theorem slack_amount_against_message x :
  ("$" ++ format_2f x)%string =
    if is_nan x then "$nan"%string
    else if is_infinity x then
           if sign_bit x then "$-inf"%string else "$inf"%string
         else remove_commas (format_usd (Some x)).
Proof.
  pose proof (finite_guard x) as G. rewrite is_nan_spec in *.
  unfold format_usd, format_2f, format_comma_2f, sign_bit in *.
  destruct (str_nat_spec (cents_of x / 100)) as [Hd _].
  destruct (cents_split (cents_of x)) as [Hn _].
  rewrite finite_guard.
  destruct (Prim2SF x) as [s|s| |s m e] eqn:E; cbn [orb] in G.
  - rewrite G. symmetry. now apply remove_commas_amount.
  - rewrite G. now destruct s.
  - reflexivity.
  - rewrite G. symmetry. now apply remove_commas_amount.
Qed.

Lemma strip_blank s : all_chars is_space s = true -> strip s = EmptyString.
Proof.
  intros H. unfold strip.
  assert (E : lstrip s = EmptyString).
  { induction s as [|c r IH]; [reflexivity|]. simpl in *.
    apply andb_prop in H. destruct H as [-> Hr]. now apply IH. }
  now rewrite E.
Qed.

(** X20: an alert is neither lost nor sent twice.  Whatever the webhook
    variable and the fate of the request, [notify] makes at most one
    request, to the stripped webhook, with the message as its text; it
    prints the alert on the console exactly when no webhook is set or the
    request failed; and a webhook variable that is unset or holds only
    white space gives the console alone. *)
Theorem notify_never_drops env post_ok message ctx :
  let effects := notify (Notifier env) post_ok message ctx in
  (List.length (filter is_post effects) <= 1)%nat
  /\ (forall url text elements,
         In (Post url text elements) effects ->
         url = Notifier env /\ is_empty url = false
         /\ text = message /\ elements = context_elements ctx)
  /\ (In (Post (Notifier env) message (context_elements ctx)) effects
      <-> is_empty (Notifier env) = false)
  /\ (In (Print message ctx) effects
      <-> is_empty (Notifier env) = true \/ post_ok = false)
  /\ (forall m c, In (Print m c) effects -> m = message /\ c = ctx)
  /\ (match env with
      | Some s => all_chars is_space s = true
      | None => True
      end -> effects = [Print message ctx]).
Proof.
  intros effects. unfold effects, notify, _post_slack. clear effects.
  assert (Hblank : match env with
                   | Some s => all_chars is_space s = true
                   | None => True
                   end -> is_empty (Notifier env) = true).
  { unfold Notifier. destruct env as [s|]; [|reflexivity].
    intros H. now rewrite strip_blank. }
  destruct (is_empty (Notifier env)) eqn:E; [|destruct post_ok];
    cbn [app filter is_post List.length].
  - refine (conj _ (conj _ (conj _ (conj _ (conj _ _))))).
    + lia.
    + intros url text elements [H|[]]. discriminate.
    + split; [intros [H|[]]|]; discriminate.
    + split; [now left|intros _; now left].
    + intros m c [H|[]]. injection H as <- <-. now split.
    + reflexivity.
  - refine (conj _ (conj _ (conj _ (conj _ (conj _ _))))).
    + lia.
    + intros url text elements [H|[]]. injection H as <- <- <-.
      now repeat split.
    + split; [reflexivity|intros _; now left].
    + split; [intros [H|[]]; discriminate|intros [H|H]; discriminate].
    + intros m c [H|[]]. discriminate.
    + intros H. apply Hblank in H. discriminate.
  - refine (conj _ (conj _ (conj _ (conj _ (conj _ _))))).
    + lia.
    + intros url text elements [H|[H|[]]]; [|discriminate].
      injection H as <- <- <-. now repeat split.
    + split; [reflexivity|intros _; now left].
    + split; [intros _; now right|intros _; right; now left].
    + intros m c [H|[H|[]]]; [discriminate|].
      injection H as <- <-. now split.
    + intros H. apply Hblank in H. discriminate.
Qed.


(** ** A run started from the file of the run before *)

Section Restart.

Variable py_repr : float -> string.
Variable builtin_float : string -> option float.
Variable builtin_int : string -> option Z.


(** A name that the header does not hold is under no column. *)
Lemma dict_get_absent key header line cur :
  ~ In key header -> dict_get key header line cur = cur.
Proof.
  revert line cur. induction header as [|name names IH]; intros line cur H;
    [reflexivity|].
  cbn [dict_get]. rewrite IH by (intros Hin; apply H; now right).
  destruct (String.eqb_spec name key) as [E|E]; [|reflexivity].
  exfalso. apply H. now left.
Qed.

(** X22: a history file that exists and is empty never gets its header.
    [append_history] writes the header only when there is no file, so the
    first row written to an empty file is the line the reader takes as the
    header.  After that row [read_last_state] finds no row at all; and as
    long as no field of that row is the text ["lowest_price"],
    [read_last_lowest] finds no low, however many rows follow. *)
Theorem empty_file_never_gets_header first rest :
  ~ In "lowest_price"%string first ->
  fold_left append_history (first :: rest) (Some [])
  = Some (first :: rest)
  /\ read_last_state builtin_float builtin_int
       (on_disk (append_history (Some []) first)) = None
  /\ read_last_lowest builtin_float
       (lowest_column
          (on_disk (fold_left append_history (first :: rest) (Some []))))
     = None.
Proof.
  intros H. rewrite append_all. cbn [app]. split; [reflexivity|].
  split; [reflexivity|].
  cbn [on_disk dict_reader lowest_column read_last_lowest].
  assert (E : forall l,
             lows_of builtin_float
               (map (fun r => {| field_lowest_price := col_lowest_price r |})
                  (map (record_of first) l)) = Returned []).
  { induction l as [|line l IH]; [reflexivity|].
    cbn [map lows_of field_lowest_price record_of col_lowest_price].
    rewrite (dict_get_absent _ _ _ _ H). cbn [field_truthy]. exact IH. }
  now rewrite E.
Qed.

End Restart.


Lemma empty_file_never_gets_header_witness :
  fold_left append_history
    [ history_line sample_repr "2025-09-01T12:00:00-04:00"
        "https://example.com/event"
        {| lowest_price := Some 120; median_sale := None;
           computed_min_price := Some 100; num_listings := Some 3%Z;
           all_prices := [100; 130; 150] |};
      history_line sample_repr "2025-09-01T12:05:00-04:00"
        "https://example.com/event"
        {| lowest_price := Some 100; median_sale := None;
           computed_min_price := Some 100; num_listings := Some 3%Z;
           all_prices := [100; 130; 150] |} ]
    (Some [])
  = Some
      [ history_line sample_repr "2025-09-01T12:00:00-04:00"
          "https://example.com/event"
          {| lowest_price := Some 120; median_sale := None;
             computed_min_price := Some 100; num_listings := Some 3%Z;
             all_prices := [100; 130; 150] |};
        history_line sample_repr "2025-09-01T12:05:00-04:00"
          "https://example.com/event"
          {| lowest_price := Some 100; median_sale := None;
             computed_min_price := Some 100; num_listings := Some 3%Z;
             all_prices := [100; 130; 150] |} ]
  /\ read_last_state py_float py_int
       (on_disk
          (append_history (Some [])
             (history_line sample_repr "2025-09-01T12:00:00-04:00"
                "https://example.com/event"
                {| lowest_price := Some 120; median_sale := None;
                   computed_min_price := Some 100; num_listings := Some 3%Z;
                   all_prices := [100; 130; 150] |}))) = None
  /\ read_last_lowest py_float
       (lowest_column
          (on_disk
             (fold_left append_history
                [ history_line sample_repr "2025-09-01T12:00:00-04:00"
                    "https://example.com/event"
                    {| lowest_price := Some 120; median_sale := None;
                       computed_min_price := Some 100;
                       num_listings := Some 3%Z;
                       all_prices := [100; 130; 150] |};
                  history_line sample_repr "2025-09-01T12:05:00-04:00"
                    "https://example.com/event"
                    {| lowest_price := Some 100; median_sale := None;
                       computed_min_price := Some 100;
                       num_listings := Some 3%Z;
                       all_prices := [100; 130; 150] |} ]
                (Some []))))
     = None.
Proof.
  apply (empty_file_never_gets_header py_float py_int).
  intros H. vm_compute in H.
  repeat (destruct H as [H|H]; [discriminate|]). exact H.
Defined.
